(** * linkterm: a terminal bridged over a WebSocket connection

    A verification development for the Go package [linkterm]
    (files [server.go] and [client.go]).  The server side pumps bytes
    between a pseudoterminal and the connection and decodes the one control
    message of the protocol, [resize:<cols>:<rows>]; the client side
    normalises the target address, configures the dialer, encodes resize
    notifications and reports its disconnection once.

    Go values are embedded as follows: [int], [int64] and [time.Duration]
    are [Z] (a 64-bit platform is assumed, range checks are written out);
    [uint16] is [Z] reduced modulo [2^16]; [string] and [[]byte] are
    [string] (a sequence of 8-bit characters); pointers to dialers are
    locations of a finite map; the effects of a session (PTY writes, window
    size changes, log lines, lines printed on standard output) are recorded
    in explicit state records. *)

From Stdlib Require Import ZArith Lia List String Ascii Bool QArith Qabs Qround Qpower Lqa.
From stdpp Require Import gmap.
Import ListNotations.

Local Open Scope string_scope.

(** ** Package [strings] of the Go library, as far as the program uses it *)

Module Strings.

(** [s[lo:hi]] for [lo <= hi <= len(s)]. *)
Definition slice (s : string) (lo hi : nat) : string :=
  String.substring lo (hi - lo) s.

(** [s[lo:]]. *)
Definition slice_from (s : string) (lo : nat) : string :=
  slice s lo (String.length s).

(** [strings.HasPrefix]:
    [len(s) >= len(prefix) && s[:len(prefix)] == prefix]. *)
Definition HasPrefix (s prefix : string) : bool :=
  (String.length prefix <=? String.length s)%nat
  && String.eqb (slice s 0 (String.length prefix)) prefix.

(** [strings.TrimPrefix]. *)
Definition TrimPrefix (s prefix : string) : string :=
  if HasPrefix s prefix then slice_from s (String.length prefix) else s.

(** [strings.IndexByte]: position of the first occurrence of [c]. *)
Fixpoint IndexByte (s : string) (c : ascii) : option nat :=
  match s with
  | EmptyString => None
  | String a s' =>
      if Ascii.eqb a c then Some O
      else match IndexByte s' c with
           | Some i => Some (S i)
           | None => None
           end
  end.

(** [strings.Count] for a one-byte separator. *)
Fixpoint Count (s : string) (c : ascii) : nat :=
  match s with
  | EmptyString => O
  | String a s' => ((if Ascii.eqb a c then 1 else 0) + Count s' c)%nat
  end.

(** The loop of [strings.genSplit] for a one-byte separator and [n > 0]
    result slots: up to [n - 1] cuts, the last slot takes the unsplit
    remainder. *)
Fixpoint genSplit (s : string) (sep : ascii) (n : nat) : list string :=
  match n with
  | O => []
  | S O => [s]
  | S n' =>
      match IndexByte s sep with
      | None => [s]
      | Some m => slice s 0 m :: genSplit (slice_from s (S m)) sep n'
      end
  end.

(** [strings.Split(s, sep)]: [genSplit] with [Count(s, sep) + 1] slots. *)
Definition Split (s : string) (sep : ascii) : list string :=
  genSplit s sep (Count s sep + 1).

(** [strings.SplitN(s, sep, n)] for [n > 0]. *)
Definition SplitN (s : string) (sep : ascii) (n : nat) : list string :=
  genSplit s sep n.

(** [strings.Contains]. *)
Fixpoint Contains (s substr : string) : bool :=
  String.prefix substr s
  || match s with
     | EmptyString => false
     | String _ s' => Contains s' substr
     end.

End Strings.

(** ** Decimal conversions: [strconv.Atoi] and the verb [%d] of [fmt] *)

Module Strconv.
Local Open Scope Z_scope.

Definition byte_of (c : ascii) : Z := Z.of_N (N_of_ascii c).
Definition ascii_of_byte (b : Z) : ascii := ascii_of_N (Z.to_N (b mod 256)).

(** The digit loop of [strconv.Atoi]/[ParseUint] in base 10:
    [ch -= '0'; if ch > 9 { syntax error }; n = n*10 + ch];
    [None] is the syntax error. The accumulator is unbounded here, the
    range check follows the loop. *)
Fixpoint parse_digits (s : string) (n : Z) : option Z :=
  match s with
  | EmptyString => Some n
  | String ch s' =>
      let d := (byte_of ch - 48) mod 256 in
      if 9 <? d then None else parse_digits s' (n * 10 + d)
  end.

(** [strconv.Atoi] on a 64-bit platform: an optional sign, at least one
    digit, only decimal digits, and a value that fits [int]; [None] stands
    for both [ErrSyntax] and [ErrRange]. *)
Definition Atoi (s : string) : option Z :=
  match s with
  | EmptyString => None
  | String c0 rest =>
      let neg := Ascii.eqb c0 "-" in
      let body := if neg || Ascii.eqb c0 "+" then rest else s in
      match body with
      | EmptyString => None
      | _ =>
          match parse_digits body 0 with
          | None => None
          | Some un =>
              if neg then (if 2 ^ 63 <? un then None else Some (- un))
              else (if 2 ^ 63 <=? un then None else Some un)
          end
      end
  end.

(** The characters ['0'] to ['9']. *)
Definition is_digit (c : ascii) : bool :=
  (48 <=? byte_of c) && (byte_of c <=? 57).

Fixpoint all_digits (s : string) : bool :=
  match s with
  | EmptyString => true
  | String c s' => is_digit c && all_digits s'
  end.

(** The digit loop of [fmt]'s [fmtInteger] in base 10, writing from the
    end of the buffer:
    [for u >= 10 { next := u / 10; buf[i] = '0' + u - next*10; u = next }]
    and then the leading digit. *)
Fixpoint fmt_digits (fuel : nat) (u : Z) (buf : string) : string :=
  match fuel with
  | O => buf
  | S fuel' =>
      if 10 <=? u then
        let next := u / 10 in
        fmt_digits fuel' next (String (ascii_of_byte (48 + u - next * 10)) buf)
      else String (ascii_of_byte (48 + u)) buf
  end.

(** [fmt.Sprintf("%d", v)] for an [int]: the sign, then the digits of the
    magnitude. A number below [2^k] has at most [k] decimal digits, which
    bounds the loop. *)
Definition FormatInt (v : Z) : string :=
  let u := Z.abs v in
  let ds := fmt_digits (S (Z.to_nat (Z.log2 u))) u "" in
  if v <? 0 then String "-" ds else ds.

End Strconv.

(** ** [float64] arithmetic, as far as [time.Duration] uses it

    A finite [float64] is embedded as the rational it denotes. Every
    operation computes the exact rational result and rounds it to the
    nearest binary64 value, ties to even (IEEE 754, precision 53, least
    exponent -1074). The values of this program stay far below the largest
    finite [float64], so overflow to infinity is left out. *)

Module Float64.
Local Open Scope Q_scope.

(** Nearest integer, ties to even. *)
Definition rne (x : Q) : Z :=
  let f := Qfloor x in
  match Qcompare (x - inject_Z f) (1 # 2) with
  | Lt => f
  | Gt => (f + 1)%Z
  | Eq => if Z.even f then f else (f + 1)%Z
  end.

(** [floor (log2 x)] for [x > 0]. *)
Definition ilog2 (x : Q) : Z :=
  let l := (Z.log2 (Qnum x) - Z.log2 (Zpos (Qden x)))%Z in
  if Qle_bool (2 ^ l) x then l else (l - 1)%Z.

(** Exponent of the unit in the last place of the binary64 format at [x]. *)
Definition fexp (x : Q) : Z := Z.max (ilog2 (Qabs x) - 52) (-1074).

(** Rounding to binary64. *)
Definition round (x : Q) : Q :=
  if Qeq_bool x 0 then 0
  else inject_Z (rne (x / 2 ^ fexp x)) * 2 ^ fexp x.

(** The conversion [float64(v)] of an integer. *)
Definition of_int (v : Z) : Q := round (inject_Z v).

Definition add (a b : Q) : Q := round (a + b).
Definition div (a b : Q) : Q := round (a / b).

(** The conversion [int(f)]: the fraction is discarded (truncation towards
    zero). *)
Definition to_int (f : Q) : Z :=
  if Qle_bool 0 f then Qfloor f else Qceiling f.

End Float64.

(** ** Package [time]: durations *)

Module Time.
Local Open Scope Z_scope.

(** A [time.Duration] is an [int64] count of nanoseconds. *)
Definition Duration := Z.
Definition maxDuration : Duration := 2 ^ 63 - 1.

Definition Nanosecond : Duration := 1.
Definition Microsecond : Duration := 1000 * Nanosecond.
Definition Millisecond : Duration := 1000 * Microsecond.
Definition Second : Duration := 1000 * Millisecond.
Definition Minute : Duration := 60 * Second.
Definition Hour : Duration := 60 * Minute.

(** [Duration.Seconds]:
    [sec := d / Second; nsec := d % Second;
     return float64(sec) + float64(nsec)/1e9]. *)
Definition Seconds (d : Duration) : Q :=
  let sec := Z.quot d Second in
  let nsec := Z.rem d Second in
  Float64.add (Float64.of_int sec)
              (Float64.div (Float64.of_int nsec) (inject_Z (10 ^ 9))).

(** [Duration.Minutes]: the same with [Minute] and [60*1e9]. *)
Definition Minutes (d : Duration) : Q :=
  let min := Z.quot d Minute in
  let nsec := Z.rem d Minute in
  Float64.add (Float64.of_int min)
              (Float64.div (Float64.of_int nsec) (inject_Z (60 * 10 ^ 9))).

(** [Duration.Hours]: the same with [Hour] and [60*60*1e9]. *)
Definition Hours (d : Duration) : Q :=
  let hour := Z.quot d Hour in
  let nsec := Z.rem d Hour in
  Float64.add (Float64.of_int hour)
              (Float64.div (Float64.of_int nsec) (inject_Z (60 * 60 * 10 ^ 9))).

End Time.

(** ** The elapsed-duration string

    The same statements format the duration in [closeSession] of the
    server ([server.go]) and in [disconnect] of the client ([client.go]):
<<
    hours := int(duration.Hours())
    minutes := int(duration.Minutes()) % 60
    seconds := int(duration.Seconds()) % 60
    if hours > 0 { "%d hours, %d minutes, %d seconds" }
    else if minutes > 0 { "%d minutes, %d seconds" }
    else { "%d seconds" }
>> *)

Module Elapsed.
Local Open Scope Z_scope.

Definition hours (duration : Time.Duration) : Z :=
  Float64.to_int (Time.Hours duration).
Definition minutes (duration : Time.Duration) : Z :=
  Z.rem (Float64.to_int (Time.Minutes duration)) 60.
Definition seconds (duration : Time.Duration) : Z :=
  Z.rem (Float64.to_int (Time.Seconds duration)) 60.

Definition durationStr (duration : Time.Duration) : string :=
  let h := hours duration in
  let m := minutes duration in
  let s := seconds duration in
  if 0 <? h then
    (Strconv.FormatInt h ++ " hours, " ++ Strconv.FormatInt m ++ " minutes, "
     ++ Strconv.FormatInt s ++ " seconds")%string
  else if 0 <? m then
    (Strconv.FormatInt m ++ " minutes, " ++ Strconv.FormatInt s ++ " seconds")%string
  else (Strconv.FormatInt s ++ " seconds")%string.

End Elapsed.

(** ** Log lines of [zerolog] *)

Module Zerolog.

Inductive Level := InfoLevel | ErrorLevel.

(** One emitted event: level, message and the string fields added with
    [Str] and [Err]. *)
Record Event := {
  level : Level;
  msg : string;
  fields : list (string * string)
}.

Definition is_error (e : Event) : bool :=
  match level e with ErrorLevel => true | InfoLevel => false end.

End Zerolog.

(** ** Package [gorilla/websocket], as far as the program uses it *)

Module Websocket.
Local Open Scope Z_scope.

Definition TextMessage : Z := 1.
Definition BinaryMessage : Z := 2.
Definition CloseMessage : Z := 8.
Definition PingMessage : Z := 9.
Definition PongMessage : Z := 10.

Definition CloseNormalClosure : Z := 1000.
Definition CloseGoingAway : Z := 1001.

(** An error of the connection: [close_code] is the code of a
    [*CloseError], [None] for any other error; [Error] is the text of
    [err.Error()]. *)
Record error := {
  close_code : option Z;
  Error : string
}.

(** [IsUnexpectedCloseError(err)] with no expected code: a close error
    of any code. *)
Definition IsUnexpectedCloseError (err : error) : bool :=
  match close_code err with Some _ => true | None => false end.

(** [IsCloseError(err, codes...)]. *)
Definition IsCloseError (err : error) (codes : list Z) : bool :=
  match close_code err with
  | Some c => existsb (Z.eqb c) codes
  | None => false
  end.

(** What [conn.ReadMessage] returns. *)
Inductive ReadResult :=
| Message (messageType : Z) (p : string)
| ReadError (err : error).

(** The fields of [websocket.Dialer]. The function, pointer and interface
    typed fields are kept abstract in [Fn]. *)
Record Dialer {Fn : Type} := {
  NetDial : option Fn;
  NetDialContext : option Fn;
  NetDialTLSContext : option Fn;
  Proxy : option Fn;
  TLSClientConfig : option Fn;
  HandshakeTimeout : Time.Duration;
  ReadBufferSize : Z;
  WriteBufferSize : Z;
  WriteBufferPool : option Fn;
  Subprotocols : list string;
  EnableCompression : bool;
  Jar : option Fn
}.
Arguments Dialer : clear implicits.

(** The assignment [d.HandshakeTimeout = t]. *)
Definition set_HandshakeTimeout {Fn} (t : Time.Duration) (d : Dialer Fn) : Dialer Fn :=
  {| NetDial := NetDial d;
     NetDialContext := NetDialContext d;
     NetDialTLSContext := NetDialTLSContext d;
     Proxy := Proxy d;
     TLSClientConfig := TLSClientConfig d;
     HandshakeTimeout := t;
     ReadBufferSize := ReadBufferSize d;
     WriteBufferSize := WriteBufferSize d;
     WriteBufferPool := WriteBufferPool d;
     Subprotocols := Subprotocols d;
     EnableCompression := EnableCompression d;
     Jar := Jar d |}.

End Websocket.

(** ** Package [creack/pty]: the master side of the pseudoterminal *)

Module Pty.
Local Open Scope Z_scope.
Local Open Scope list_scope.

(** [pty.Winsize]; the four fields are [uint16]. *)
Record Winsize := {
  Rows : Z;
  Cols : Z;
  X : Z;
  Y : Z
}.

(** The master file: whether it has been closed, the window size of the
    terminal and the chunks written to it so far. *)
Record File := {
  closed : bool;
  size : Winsize;
  written : list string
}.

(** [pty.Setsize(t, ws)]: the ioctl sets the size of an open terminal and
    fails on a closed file; the text stands for the error of the operating
    system, which no statement below depends on. *)
Definition Setsize (t : File) (ws : Winsize) : File * option string :=
  if closed t then (t, Some "file already closed")
  else ({| closed := false; size := ws; written := written t |}, None).

(** [t.Write(p)]. *)
Definition Write (t : File) (p : string) : File * option string :=
  if closed t then (t, Some "file already closed")
  else ({| closed := false; size := size t; written := written t ++ [p] |}, None).

(** [t.Close()]. *)
Definition Close (t : File) : File :=
  {| closed := true; size := size t; written := written t |}.

End Pty.

(** ** The server: [Server.handleTerminal] of [server.go] *)

Module Server.
Local Open Scope Z_scope.
Local Open Scope list_scope.

(** Calls made on [cmd.Process]. *)
Inductive ProcessCall :=
| SignalSIGTERM
| Kill.

(** The state of one session: the PTY master [ptmx], the calls issued on
    the child process, whether [cmd.Process] is set, the events logged,
    the variable [isClosing] and the address used in log fields. *)
Record Session := {
  ptmx : Pty.File;
  process_set : bool;
  process_calls : list ProcessCall;
  logs : list Zerolog.Event;
  isClosing : bool;
  clientIP : string
}.

Definition with_ptmx (t : Pty.File) (s : Session) : Session :=
  {| ptmx := t; process_set := process_set s;
     process_calls := process_calls s; logs := logs s;
     isClosing := isClosing s; clientIP := clientIP s |}.

Definition with_isClosing (b : bool) (s : Session) : Session :=
  {| ptmx := ptmx s; process_set := process_set s;
     process_calls := process_calls s; logs := logs s;
     isClosing := b; clientIP := clientIP s |}.

Definition log (e : Zerolog.Event) (s : Session) : Session :=
  {| ptmx := ptmx s; process_set := process_set s;
     process_calls := process_calls s; logs := logs s ++ [e];
     isClosing := isClosing s; clientIP := clientIP s |}.

Definition call (c : ProcessCall) (s : Session) : Session :=
  {| ptmx := ptmx s; process_set := process_set s;
     process_calls := process_calls s ++ [c]; logs := logs s;
     isClosing := isClosing s; clientIP := clientIP s |}.

(** The conversion [uint16(v)] of an [int]: the low 16 bits. *)
Definition uint16 (v : Z) : Z := v mod 2 ^ 16.

(** The body of [if messageType == websocket.TextMessage { ... }] in the
    inbound pump: a payload longer than 7 bytes that starts with
    [resize:] is a resize request, any other payload is input for the
    PTY. *)
Definition handleText (p : string) (s : Session) : Session :=
  if (7 <? String.length p)%nat && String.eqb (Strings.slice p 0 7) "resize:" then
    let parts := Strings.Split (Strings.slice_from p 7) ":" in
    if (length parts =? 2)%nat then
      match Strconv.Atoi (nth 0 parts ""), Strconv.Atoi (nth 1 parts "") with
      | Some cols, Some rows =>
          if (0 <? cols) && (0 <? rows) then
            match Pty.Setsize (ptmx s)
                    {| Pty.Rows := uint16 rows; Pty.Cols := uint16 cols;
                       Pty.X := 0; Pty.Y := 0 |} with
            | (t, Some err) =>
                log {| Zerolog.level := Zerolog.ErrorLevel;
                       Zerolog.msg := "Error resizing pty";
                       Zerolog.fields := [("error", err)] |}
                    (with_ptmx t s)
            | (t, None) => with_ptmx t s
            end
          else s
      | _, _ => s
      end
    else s
  else
    with_ptmx (fst (Pty.Write (ptmx s) p)) s.

(** One message read by the inbound pump. *)
Definition handleMessage (messageType : Z) (p : string) (s : Session) : Session :=
  if messageType =? Websocket.TextMessage then handleText p s else s.

(** *** The error handlers of the pumps, step by step

    The variable [isClosing] is an ordinary [bool] captured by the three
    goroutines of the session. Each handler reads it, logs and assigns it in
    separate statements; [c] is the value of [!isClosing] that the
    goroutine has read. *)
Inductive Step :=
| ReadFlag
| LogIf (e : option Zerolog.Event)
| SetFlagIf
| SetFlag.

Definition exec_step (st : Step) (c : bool) (s : Session) : bool * Session :=
  match st with
  | ReadFlag => (negb (isClosing s), s)
  | LogIf (Some e) => (c, if c then log e s else s)
  | LogIf None => (c, s)
  | SetFlagIf => (c, if c then with_isClosing true s else s)
  | SetFlag => (c, with_isClosing true s)
  end.

Fixpoint run_steps (sts : list Step) (c : bool) (s : Session) : Session :=
  match sts with
  | [] => s
  | st :: sts' => let '(c', s') := exec_step st c s in run_steps sts' c' s'
  end.

(** Inbound pump, [conn.ReadMessage] failed:
<<
    if !isClosing {
      if websocket.IsUnexpectedCloseError(err) { Info ... }
      else if !strings.Contains(err.Error(), "use of closed") { Error ... }
      isClosing = true
    }
    return
>> *)
Definition inbound_error_event (ip : string) (err : Websocket.error)
  : option Zerolog.Event :=
  if Websocket.IsUnexpectedCloseError err then
    Some {| Zerolog.level := Zerolog.InfoLevel;
            Zerolog.msg := "Client disconnected unexpectedly";
            Zerolog.fields := [("clientIP", ip)] |}
  else if negb (Strings.Contains (Websocket.Error err) "use of closed") then
    Some {| Zerolog.level := Zerolog.ErrorLevel;
            Zerolog.msg := "Error reading from client";
            Zerolog.fields := [("clientIP", ip); ("error", Websocket.Error err)] |}
  else None.

Definition inbound_error_steps (ip : string) (err : Websocket.error) : list Step :=
  [ReadFlag; LogIf (inbound_error_event ip err); SetFlagIf].

(** Outbound pump, [conn.WriteMessage] failed:
<<
    if !isClosing && !strings.Contains(err.Error(), "use of closed") { Error ... }
    isClosing = true
    break
>> *)
Definition outbound_error_event (ip : string) (err : Websocket.error)
  : option Zerolog.Event :=
  if negb (Strings.Contains (Websocket.Error err) "use of closed") then
    Some {| Zerolog.level := Zerolog.ErrorLevel;
            Zerolog.msg := "Error writing to WebSocket client";
            Zerolog.fields := [("clientIP", ip); ("error", Websocket.Error err)] |}
  else None.

Definition outbound_error_steps (ip : string) (err : Websocket.error) : list Step :=
  [ReadFlag; LogIf (outbound_error_event ip err); SetFlag].

(** Exit watcher, after [cmd.Wait()] and the close frame:
    [isClosing = true]. *)
Definition exit_watcher_steps : list Step := [SetFlag].

(** Goroutines that run handlers concurrently: each has the statements it
    still has to execute and its local [c]. A schedule names, step by step,
    the goroutine that executes its next statement. *)
Definition Goroutine : Type := list Step * bool.

Definition sched_step (i : nat) (gs : list Goroutine) (s : Session)
  : list Goroutine * Session :=
  match nth_error gs i with
  | Some (st :: sts, c) =>
      let '(c', s') := exec_step st c s in
      (firstn i gs ++ (sts, c') :: skipn (S i) gs, s')
  | _ => (gs, s)
  end.

Fixpoint run_schedule (sched : list nat) (gs : list Goroutine) (s : Session)
  : list Goroutine * Session :=
  match sched with
  | [] => (gs, s)
  | i :: sched' => let '(gs', s') := sched_step i gs s in run_schedule sched' gs' s'
  end.

Definition error_events (s : Session) : nat :=
  length (List.filter Zerolog.is_error (logs s)).

(** *** The inbound pump

    The loop of the first goroutine over the results of
    [conn.ReadMessage]; it ends at the first read error. With no result
    left the goroutine is blocked in [ReadMessage]. *)
Fixpoint inboundPump (reads : list Websocket.ReadResult) (s : Session) : Session :=
  match reads with
  | [] => s
  | Websocket.ReadError err :: _ =>
      run_steps (inbound_error_steps (clientIP s) err) false s
  | Websocket.Message messageType p :: reads' =>
      inboundPump reads' (handleMessage messageType p s)
  end.

(** *** Teardown: [closeSession]

    The [select] waits for [done], closed by the goroutine that runs
    [cmd.Wait()], and for the timer [time.After(time.Second)].
    [done_after] is the instant at which [done] is closed, measured from
    the start of the timer, [None] when the child never exits; when both
    are ready at the same instant Go picks one of them, [tie]. *)
Inductive SelectCase :=
| CaseDone
| CaseTimer.

Record TeardownEnv := {
  done_after : option Time.Duration;
  tie : SelectCase;
  elapsed : Time.Duration
}.

Definition select_done_or_timer (done_after : option Time.Duration)
    (timeout : Time.Duration) (tie : SelectCase) : SelectCase :=
  match done_after with
  | None => CaseTimer
  | Some t =>
      if t <? timeout then CaseDone
      else if timeout <? t then CaseTimer
      else tie
  end.

Definition closeSession (env : TeardownEnv) (s : Session) : Session :=
  let s1 := with_ptmx (Pty.Close (ptmx s)) s in
  let s2 :=
    if process_set s1 then
      let s' := call SignalSIGTERM s1 in
      match select_done_or_timer (done_after env) Time.Second (tie env) with
      | CaseDone => s'
      | CaseTimer => call Kill s'
      end
    else s1 in
  log {| Zerolog.level := Zerolog.InfoLevel;
         Zerolog.msg := "Session ended";
         Zerolog.fields := [("clientIP", clientIP s2);
                            ("duration", Elapsed.durationStr (elapsed env))] |}
      s2.

Definition kills (s : Session) : nat :=
  length (List.filter (fun c => match c with Kill => true | SignalSIGTERM => false end)
                      (process_calls s)).

(** A session right after [pty.Start] succeeded. *)
Definition newSession (ip : string) (ws : Pty.Winsize) : Session :=
  {| ptmx := {| Pty.closed := false; Pty.size := ws; Pty.written := [] |};
     process_set := true;
     process_calls := [];
     logs := [];
     isClosing := false;
     clientIP := ip |}.

End Server.

(** ** The client: [client.go] and the dialer set up by [runClient] *)

Module Client.
Local Open Scope Z_scope.

(** [Client]; [dialer] is a pointer, [None] is [nil]. The logger is left
    out. *)
Record Client := {
  URL : string;
  dialer : option positive
}.

(** The heap cell of the package variable [websocket.DefaultDialer]. *)
Definition DefaultDialer : positive := 1%positive.

(** [NewClient]. *)
Definition NewClient (url : string) : Client :=
  let url := if String.eqb url "" then "ws://localhost/terminal" else url in
  let url :=
    if Strings.HasPrefix url "http://" then
      "ws://" ++ Strings.TrimPrefix url "http://"
    else if Strings.HasPrefix url "https://" then
      "wss://" ++ Strings.TrimPrefix url "https://"
    else if negb (Strings.HasPrefix url "ws://")
            && negb (Strings.HasPrefix url "wss://") then
      "ws://" ++ url
    else url in
  let parts := Strings.SplitN url "/" 4 in
  let url := if (length parts =? 3)%nat then url ++ "/terminal" else url in
  {| URL := url; dialer := Some DefaultDialer |}.

(** [SetCustomDialer]. *)
Definition SetCustomDialer (c : Client) (d : option positive) : Client :=
  {| URL := URL c; dialer := d |}.

(** The call [dialer.Dial(c.URL, header)] as the dialer sees it: the
    fields of the receiver at the time of the call and the address. *)
Record DialCall {Fn : Type} := {
  dial_receiver : option (Websocket.Dialer Fn);
  dial_url : string
}.
Arguments DialCall : clear implicits.

(** The beginning of [Connect], up to the call of [Dial]:
<<
    dialer := c.dialer
    if dialer == nil { dialer = websocket.DefaultDialer }
    dialer.HandshakeTimeout = 5 * time.Second
    conn, resp, err := dialer.Dial(c.URL, header)
>>
    The assignment goes through the pointer: it changes the dialer in the
    heap. *)
Definition Connect_dial {Fn} (c : Client) (h : gmap positive (Websocket.Dialer Fn))
  : DialCall Fn * gmap positive (Websocket.Dialer Fn) :=
  let d := match dialer c with Some l => l | None => DefaultDialer end in
  let h' := alter (Websocket.set_HandshakeTimeout (5 * Time.Second)) d h in
  ({| dial_receiver := h' !! d; dial_url := URL c |}, h').

(** The composite literal
    [&websocket.Dialer{Proxy: proxy, HandshakeTimeout: 10 * time.Second}]
    of [runClient], the same for the LinkSocks and the proxy branch. *)
Definition cliDialer {Fn} (proxy : Fn) : Websocket.Dialer Fn :=
  {| Websocket.NetDial := None;
     Websocket.NetDialContext := None;
     Websocket.NetDialTLSContext := None;
     Websocket.Proxy := Some proxy;
     Websocket.TLSClientConfig := None;
     Websocket.HandshakeTimeout := 10 * Time.Second;
     Websocket.ReadBufferSize := 0;
     Websocket.WriteBufferSize := 0;
     Websocket.WriteBufferPool := None;
     Websocket.Subprotocols := [];
     Websocket.EnableCompression := false;
     Websocket.Jar := None |}.

(** The end of [runClient]: the custom dialer, when a proxy or a LinkSocks
    token is configured, is allocated, installed in the new client, and
    [Connect] is called. *)
Definition runClient_dial {Fn} (proxy : option Fn) (clientURL : string)
    (h : gmap positive (Websocket.Dialer Fn))
  : DialCall Fn * gmap positive (Websocket.Dialer Fn) :=
  let termClient := NewClient clientURL in
  match proxy with
  | Some f =>
      let l := fresh (dom h) in
      Connect_dial (SetCustomDialer termClient (Some l)) (<[l := cliDialer f]> h)
  | None => Connect_dial termClient h
  end.

(** The resize notification of [Connect]:
    [fmt.Sprintf("resize:%d:%d", width, height)], sent as a text
    message. *)
Definition resizeMsg (width height : Z) : string :=
  "resize:" ++ Strconv.FormatInt width ++ ":" ++ Strconv.FormatInt height.

Definition sendResize (width height : Z) : Websocket.ReadResult :=
  Websocket.Message Websocket.TextMessage (resizeMsg width height).

(** *** The disconnect report

    [disconnectOnce] is a [sync.Once]: [once_done] tells whether its
    function has run. [stdout] lists what was printed. *)
Record ConnState := {
  once_done : bool;
  hasDisconnected : bool;
  stdout : list string
}.

Definition CR : string := String (ascii_of_nat 13) "".
Definition ESC : string := String (ascii_of_nat 27) "".
Definition LF : string := String (ascii_of_nat 10) "".

(** [sync.Once.Do]. *)
Definition Once_Do (f : ConnState -> ConnState) (st : ConnState) : ConnState :=
  if once_done st then st
  else
    let st' := f st in
    {| once_done := true; hasDisconnected := hasDisconnected st';
       stdout := stdout st' |}.

(** The line printed by
    [fmt.Printf("\r\033[KDisconnected from terminal server after %s (%s)\n", ...)]. *)
Definition disconnect_line (since : Time.Duration) (reason : string) : string :=
  CR ++ ESC ++ "[KDisconnected from terminal server after "
  ++ Elapsed.durationStr since ++ " (" ++ reason ++ ")" ++ LF.

(** The closure [disconnect]; [since] is [time.Since(startTime)] at the
    time of the call. *)
Definition disconnect (since : Time.Duration) (reason : string)
    (st : ConnState) : ConnState :=
  Once_Do (fun st =>
             {| once_done := once_done st;
                hasDisconnected := true;
                stdout := (stdout st ++ [disconnect_line since reason])%list |})
          st.

(** A sequence of calls of [disconnect], in the order in which
    [disconnectOnce] admits them. *)
Definition disconnect_all (calls : list (Time.Duration * string))
    (st : ConnState) : ConnState :=
  fold_left (fun st c => disconnect (fst c) (snd c) st) calls st.

(** The state when [Connect] has created [disconnectOnce]. *)
Definition connected : ConnState :=
  {| once_done := false; hasDisconnected := false; stdout := [] |}.

End Client.

(** ** The statements of the specification, in its own words *)

Module Spec.
Local Open Scope Z_scope.

(** The fields of a resize payload after the prefix [resize:]: two
    decimal integers separated by one colon. *)
Definition resize_fields (rest : string) : option (Z * Z) :=
  match Strings.Split rest ":" with
  | [a; b] =>
      match Strconv.Atoi a, Strconv.Atoi b with
      | Some cols, Some rows => Some (cols, rows)
      | _, _ => None
      end
  | _ => None
  end.

(** A payload after [resize:] that asks for no resize: it does not parse
    as two integers, or a dimension is not positive. *)
Definition malformed (rest : string) : Prop :=
  match resize_fields rest with
  | None => True
  | Some (cols, rows) => cols <= 0 \/ rows <= 0
  end.

(** The session after the window size of an open PTY has been set to
    [cols] by [rows]: nothing else changes. *)
Definition resized (cols rows : Z) (s : Server.Session) : Server.Session :=
  Server.with_ptmx
    {| Pty.closed := false;
       Pty.size := {| Pty.Rows := rows; Pty.Cols := cols; Pty.X := 0; Pty.Y := 0 |};
       Pty.written := Pty.written (Server.ptmx s) |}
    s.

(** The session after a chunk has been written to an open PTY. *)
Definition typed (p : string) (s : Server.Session) : Server.Session :=
  Server.with_ptmx
    {| Pty.closed := false;
       Pty.size := Pty.size (Server.ptmx s);
       Pty.written := (Pty.written (Server.ptmx s) ++ [p])%list |}
    s.

(** A session used in concrete instances: an open PTY of 80 columns by
    24 rows. *)
Definition example_session : Server.Session :=
  Server.newSession "192.0.2.1"
    {| Pty.Rows := 24; Pty.Cols := 80; Pty.X := 0; Pty.Y := 0 |}.

(** Two errors of a connection that breaks while the PTY still produces
    output: the read and the write of the socket fail at the same time. *)
Definition reset_by_peer : Websocket.error :=
  {| Websocket.close_code := None;
     Websocket.Error := "read tcp 192.0.2.1:8080: connection reset by peer" |}.

Definition broken_pipe : Websocket.error :=
  {| Websocket.close_code := None;
     Websocket.Error := "write tcp 192.0.2.1:8080: broken pipe" |}.

(** The inbound and the outbound pump, each about to handle its error. *)
Definition failing_pumps : list Server.Goroutine :=
  [(Server.inbound_error_steps "192.0.2.1" reset_by_peer, false);
   (Server.outbound_error_steps "192.0.2.1" broken_pipe, false)].

(** A teardown in which the child exits 20 ms after the signal, at the end
    of a session of 125 seconds. *)
Definition quick_exit : Server.TeardownEnv :=
  {| Server.done_after := Some (20 * Time.Millisecond);
     Server.tie := Server.CaseTimer;
     Server.elapsed := 125 * Time.Second |}.

(** A teardown in which the child ignores the signal. *)
Definition no_exit : Server.TeardownEnv :=
  {| Server.done_after := None;
     Server.tie := Server.CaseDone;
     Server.elapsed := 125 * Time.Second |}.

(** The scheme rewriting of the address normalisation. *)
Inductive scheme_normalized (url : string) : string -> Prop :=
| norm_http rest :
    url = "http://" ++ rest -> scheme_normalized url ("ws://" ++ rest)
| norm_https rest :
    url = "https://" ++ rest -> scheme_normalized url ("wss://" ++ rest)
| norm_ws rest :
    url = "ws://" ++ rest -> scheme_normalized url url
| norm_wss rest :
    url = "wss://" ++ rest -> scheme_normalized url url
| norm_bare :
    Strings.HasPrefix url "http://" = false ->
    Strings.HasPrefix url "https://" = false ->
    Strings.HasPrefix url "ws://" = false ->
    Strings.HasPrefix url "wss://" = false ->
    scheme_normalized url ("ws://" ++ url).

(** A socket-scheme URL has a path component when a [/] follows the host,
    that is, occurs after the [//] of the scheme. *)
Inductive has_path : string -> Prop :=
| has_path_ws host path : 
    Strings.IndexByte host "/" = None ->
    has_path ("ws://" ++ host ++ "/" ++ path)
| has_path_wss host path :
    Strings.IndexByte host "/" = None ->
    has_path ("wss://" ++ host ++ "/" ++ path).

(** The rest of a socket-scheme URL after the [//] of its scheme. *)
Definition after_scheme (n : string) : option string :=
  if Strings.HasPrefix n "ws://" then Some (Strings.slice_from n 5)
  else if Strings.HasPrefix n "wss://" then Some (Strings.slice_from n 6)
  else None.

(** What follows the host: the host ends at the first [/], [?] or [#]. *)
Fixpoint after_host (r : string) : string :=
  match r with
  | EmptyString => EmptyString
  | String c r' =>
      if (Ascii.eqb c "/" || Ascii.eqb c "?" || Ascii.eqb c "#")%bool then r
      else after_host r'
  end.

(** A URL has a path component after the host when a [/] follows the host
    at once; a query or a fragment after the host is no path. *)
Definition path_component (n : string) : bool :=
  match after_scheme n with
  | Some r =>
      match after_host r with
      | String c _ => Ascii.eqb c "/"
      | EmptyString => false
      end
  | None => false
  end.

(** Whether a [/] occurs in what follows the host: in the path, or in a
    query or fragment. *)
Definition slash_after_host (n : string) : bool :=
  match after_scheme n with
  | Some r =>
      match Strings.IndexByte (after_host r) "/" with
      | Some _ => true
      | None => false
      end
  | None => false
  end.

(** The unit breakdown of a whole number of seconds. *)
Definition breakdown (d : Z) : string :=
  let H := d / 3600 in
  let M := (d / 60) mod 60 in
  let S := d mod 60 in
  if d <? 60 then Strconv.FormatInt S ++ " seconds"
  else if d <? 3600 then
    Strconv.FormatInt M ++ " minutes, " ++ Strconv.FormatInt S ++ " seconds"
  else
    Strconv.FormatInt H ++ " hours, " ++ Strconv.FormatInt M ++ " minutes, "
    ++ Strconv.FormatInt S ++ " seconds".

End Spec.

(** ** The rest of the server: construction, peer address, outbound pump *)

Module ServerSetup.
Local Open Scope Z_scope.

(** [Server]; the logger is left out. *)
Record Server := {
  Port : Z;
  Host : string;
  ShellPath : string;
  ShellArgs : list string
}.

(** [NewServer]. *)
Definition NewServer (port : Z) (host shellPath : string)
    (shellArgs : list string) : Server :=
  let shellPath := if String.eqb shellPath "" then "/bin/bash" else shellPath in
  let host := if String.eqb host "" then "localhost" else host in
  {| Port := port; Host := host; ShellPath := shellPath; ShellArgs := shellArgs |}.

(** The address of [Start]: [fmt.Sprintf("%s:%d", s.Host, s.Port)]. *)
Definition addr (s : Server) : string :=
  Host s ++ ":" ++ Strconv.FormatInt (Port s).

(** The shell that [runServer] passes to [NewServer]: the flag, else
    [$SHELL], else [bash] or [sh] when [exec.LookPath] finds them
    ([bash] and [sh] tell whether it does); [None] is the exit with
    "Could not detect a shell to use". *)
Definition detectShell (shellPath SHELL : string) (bash sh : bool)
  : option string :=
  if negb (String.eqb shellPath "") then Some shellPath
  else if negb (String.eqb SHELL "") then Some SHELL
  else if bash then Some "bash"
  else if sh then Some "sh"
  else None.

(** How [runServer] goes on: [os.Exit(1)] after an error event with the
    given message, or the call of [Start] on the server it has built. *)
Inductive Run :=
| Exit (msg : string)
| Started (server : Server).

(** [runServer] up to the call of [server.Start]: the shell is looked for,
    the server is built and, when a LinkSocks token is given, the LinkSocks
    client is started; [waitReady] and [addConnector] tell whether
    [wsClient.WaitReady] and [wsClient.AddConnector] return no error. *)
Definition runServer (serverPort : Z) (serverHost shellPath SHELL : string)
    (bash sh : bool) (linksocksToken : string) (waitReady addConnector : bool)
  : Run :=
  match detectShell shellPath SHELL bash sh with
  | None => Exit "Could not detect a shell to use"
  | Some shellPath =>
      let server := NewServer serverPort serverHost shellPath [] in
      if negb (String.eqb linksocksToken "") then
        if negb waitReady then Exit "Failed to connect to linksocks server"
        else if negb addConnector then Exit "Failed to add connector token"
        else Started server
      else Started server
  end.

End ServerSetup.

Module ClientIP.

(** What [getClientIP] reads of a request: the lookup [r.Header.Get] and
    [r.RemoteAddr]. *)
Record Request := {
  HeaderGet : string -> string;
  RemoteAddr : string
}.

Section Library.
(** [strings.TrimSpace] and [net.SplitHostPort] of the Go library; [None]
    is the error of [SplitHostPort]. *)
Variable TrimSpace : string -> string.
Variable SplitHostPort : string -> option (string * string).

(** [getClientIP]. *)
Definition getClientIP (r : Request) : string :=
  let ip := HeaderGet r "CF-Connecting-IP" in
  if negb (String.eqb ip "") then ip
  else
    let ip := HeaderGet r "CF-Connecting-IPv6" in
    if negb (String.eqb ip "") then ip
    else
      let forwardedFor := HeaderGet r "X-Forwarded-For" in
      let ips := Strings.Split forwardedFor "," in
      if negb (String.eqb forwardedFor "") && (0 <? length ips)%nat then
        TrimSpace (nth 0 ips "")
      else
        match SplitHostPort (RemoteAddr r) with
        | Some (host, _) => host
        | None => RemoteAddr r
        end.

End Library.

End ClientIP.

Module Outbound.
Local Open Scope Z_scope.
Local Open Scope list_scope.

(** One turn of the loop of the outbound pump, as the environment decides
    it: [ptmx.Read] gives a chunk and [conn.WriteMessage] accepts it, or
    the write fails, or the read fails ([eof] tells whether the error is
    [io.EOF]). *)
Inductive Turn :=
| Forwarded (data : string)
| WriteFailed (data : string) (err : Websocket.error)
| ReadFailed (eof : bool) (text : string).

(** The session and the messages written on the connection so far. *)
Record State := {
  session : Server.Session;
  sent : list (Z * string)
}.

(** [ptmx.Read] failed:
<<
    if err != io.EOF && !isClosing
       && !strings.Contains(err.Error(), "input/output error") { Error ... }
    break
>> *)
Definition pty_error_steps (eof : bool) (text : string) : list Server.Step :=
  if eof then []
  else
    [Server.ReadFlag;
     Server.LogIf
       (if negb (Strings.Contains text "input/output error") then
          Some {| Zerolog.level := Zerolog.ErrorLevel;
                  Zerolog.msg := "Error reading from PTY";
                  Zerolog.fields := [("error", text)] |}
        else None)].

(** The loop of the second goroutine of [handleTerminal]. With no turn
    left the goroutine is blocked in [ptmx.Read]. *)
Fixpoint outboundPump (turns : list Turn) (st : State) : State :=
  match turns with
  | [] => st
  | Forwarded data :: turns' =>
      outboundPump turns'
        {| session := session st;
           sent := sent st ++ [(Websocket.BinaryMessage, data)] |}
  | WriteFailed data err :: _ =>
      {| session :=
           Server.run_steps
             (Server.outbound_error_steps (Server.clientIP (session st)) err)
             false (session st);
         sent := sent st |}
  | ReadFailed eof text :: _ =>
      {| session := Server.run_steps (pty_error_steps eof text) false (session st);
         sent := sent st |}
  end.

End Outbound.

(** ** The rest of the client: the two pumps of [Connect] and the resize
    poller *)

Module Pumps.
Local Open Scope Z_scope.

(** [fmt.Print]/[fmt.Printf]/[os.Stdout.Write]: one more entry of
    [stdout]. *)
Definition print (text : string) (st : Client.ConnState) : Client.ConnState :=
  {| Client.once_done := Client.once_done st;
     Client.hasDisconnected := Client.hasDisconnected st;
     Client.stdout := (Client.stdout st ++ [text])%list |}.

(** One turn of the loop of the output pump: [conn.ReadMessage] gives a
    message and [os.Stdout.Write] writes it, or the write fails after
    [partial] with the error [text], or the read fails. *)
Inductive OutputTurn :=
| Received (messageType : Z) (message : string)
| StdoutFailed (messageType : Z) (message partial text : string)
| ReadFailed (err : Websocket.error).

(** The loop of the goroutine "Receive terminal output from WebSocket";
    the boolean tells whether the goroutine has returned. [since] is
    [time.Since(startTime)] when it reports. *)
Fixpoint outputPump (since : Time.Duration) (turns : list OutputTurn)
    (st : Client.ConnState) : Client.ConnState * bool :=
  match turns with
  | [] => (st, false)
  | ReadFailed err :: _ =>
      if Websocket.IsCloseError err
           [Websocket.CloseNormalClosure; Websocket.CloseGoingAway]
         || Strings.Contains (Websocket.Error err) "use of closed" then
        (Client.disconnect since "client closed" st, true)
      else
        (Client.disconnect since "connection error"
           (print ("Connection closed: " ++ Websocket.Error err)
              (print (Client.CR ++ Client.ESC ++ "[K" ++ Client.LF) st)),
         true)
  | Received messageType message :: turns' =>
      if messageType =? Websocket.CloseMessage then
        (Client.disconnect since "server sent close message" st, true)
      else outputPump since turns' (print message st)
  | StdoutFailed messageType message partial text :: _ =>
      if messageType =? Websocket.CloseMessage then
        (Client.disconnect since "server sent close message" st, true)
      else
        (Client.disconnect since "output error"
           (print ("Error writing to stdout: " ++ text) (print partial st)),
         true)
  end.

(** The deferred function of [Connect], after the connection is closed:
    [if !hasDisconnected { disconnect("client closed") }]. *)
Definition deferred (since : Time.Duration) (st : Client.ConnState)
  : Client.ConnState :=
  if negb (Client.hasDisconnected st) then Client.disconnect since "client closed" st
  else st.

(** One turn of the loop of the input pump: [os.Stdin.Read] gives a chunk
    and [conn.WriteMessage] accepts it, or the write fails, or the read
    fails. *)
Inductive InputTurn :=
| Typed (chunk : string)
| SendFailed (chunk : string) (err : Websocket.error)
| StdinFailed.

(** The loop of the goroutine "Send terminal input to WebSocket": the
    messages it has sent, what it has printed, and whether it has
    returned. Every chunk goes out as a text message. *)
Fixpoint inputPump (turns : list InputTurn)
  : list Websocket.ReadResult * list string * bool :=
  match turns with
  | [] => ([], [], false)
  | Typed chunk :: turns' =>
      let '(msgs, out, ended) := inputPump turns' in
      (Websocket.Message Websocket.TextMessage chunk :: msgs, out, ended)
  | SendFailed chunk err :: _ =>
      ([],
       if negb (Strings.Contains (Websocket.Error err) "use of closed")
          && negb (Websocket.IsCloseError err
                     [Websocket.CloseNormalClosure; Websocket.CloseGoingAway])
       then ["Error writing to WebSocket: " ++ Websocket.Error err]
       else [],
       true)
  | StdinFailed :: _ => ([], [], true)
  end.

(** The channel [done]: open, closed, or closed a second time, which is a
    run-time panic in Go. *)
Inductive Done :=
| DoneOpen
| DoneClosed
| ClosedTwice.

(** [close(done)]. *)
Definition close (d : Done) : Done :=
  match d with
  | DoneOpen => DoneClosed
  | DoneClosed => ClosedTwice
  | ClosedTwice => ClosedTwice
  end.

(** What each pump does to [done]: the input pump calls [close(done)]
    before each of its returns, the output pump has [defer close(done)]. *)
Definition inputPump_done (turns : list InputTurn) (d : Done) : Done :=
  if snd (inputPump turns) then close d else d.

Definition outputPump_done (since : Time.Duration) (turns : list OutputTurn)
    (st : Client.ConnState) (d : Done) : Done :=
  if snd (outputPump since turns st) then close d else d.

(** *** The resize poller of [resize_windows.go]

    A reading of [term.GetSize]: the two numbers and whether it returned an
    error. *)
Record Reading := {
  width : Z;
  height : Z;
  failed : bool
}.

(** The loop over the ticks: a reading that failed is skipped; one that
    differs from the recorded size is recorded and sends an event on
    [sigwinchCh]. The result is the recorded size and the number of
    events sent. *)
Fixpoint poll (ticks : list Reading) (last : Z * Z) (events : nat)
  : (Z * Z) * nat :=
  match ticks with
  | [] => (last, events)
  | r :: ticks' =>
      if failed r then poll ticks' last events
      else if negb (width r =? fst last) || negb (height r =? snd last) then
        poll ticks' (width r, height r) (S events)
      else poll ticks' last events
  end.

(** [setupResizeHandler]: the first reading is recorded whether it failed
    or not ([lastWidth, lastHeight, _ = term.GetSize(...)]). *)
Definition setupResizeHandler (first : Reading) (ticks : list Reading)
  : (Z * Z) * nat :=
  poll ticks (width first, height first) 0.

End Pumps.

(** ** Notions used in the further properties *)

Module Notions.

(** A payload that the server takes for a resize request: it starts with
    [resize:] and is longer than it. *)
Definition resize_like (p : string) : bool :=
  Strings.HasPrefix p "resize:" && negb (String.eqb p "resize:").

(** The payloads of the text messages of a list of reads. *)
Fixpoint text_payloads (reads : list Websocket.ReadResult) : list string :=
  match reads with
  | [] => []
  | Websocket.Message messageType p :: reads' =>
      if (messageType =? Websocket.TextMessage)%Z then p :: text_payloads reads'
      else text_payloads reads'
  | Websocket.ReadError _ :: reads' => text_payloads reads'
  end.

(** No read of the list is an error. *)
Fixpoint no_error (reads : list Websocket.ReadResult) : bool :=
  match reads with
  | [] => true
  | Websocket.Message _ _ :: reads' => no_error reads'
  | Websocket.ReadError _ :: _ => false
  end.

(** The payloads that the output pump prints before its first turn that
    ends it. *)
Fixpoint printed (turns : list Pumps.OutputTurn) : list string :=
  match turns with
  | Pumps.Received messageType message :: turns' =>
      if (messageType =? Websocket.CloseMessage)%Z then []
      else message :: printed turns'
  | _ => []
  end.

(** Some turn ends the output pump. *)
Fixpoint output_ends (turns : list Pumps.OutputTurn) : bool :=
  match turns with
  | [] => false
  | Pumps.Received messageType _ :: turns' =>
      (messageType =? Websocket.CloseMessage)%Z || output_ends turns'
  | _ => true
  end.

(** Some turn ends the input pump. *)
Fixpoint input_ends (turns : list Pumps.InputTurn) : bool :=
  match turns with
  | [] => false
  | Pumps.Typed _ :: turns' => input_ends turns'
  | _ => true
  end.

(** The error that [ReadMessage] returns for a close frame with the code
    of a normal closure. *)
Definition normal_closure : Websocket.error :=
  {| Websocket.close_code := Some 1000%Z;
     Websocket.Error := "websocket: close 1000 (normal)" |}.

(** The chunks that the outbound pump forwards before its first turn that
    fails. *)
Fixpoint forwarded (turns : list Outbound.Turn) : list string :=
  match turns with
  | Outbound.Forwarded data :: turns' => data :: forwarded turns'
  | _ => []
  end.

(** The last reading of a list that did not fail. *)
Fixpoint last_good (ticks : list Pumps.Reading) (default : Z * Z) : Z * Z :=
  match ticks with
  | [] => default
  | r :: ticks' =>
      last_good ticks'
        (if Pumps.failed r then default else (Pumps.width r, Pumps.height r))
  end.

End Notions.

Example Contains_samples :
  Strings.Contains "read tcp: use of closed network connection" "use of closed" = true
  /\ Strings.Contains "write tcp: broken pipe" "use of closed" = false
  /\ Strings.Contains "" "" = true.
Proof. repeat split; reflexivity. Qed.

Example Split_two : Strings.Split "120:40" ":" = ["120"; "40"].
Proof. reflexivity. Qed.

Example Split_empty : Strings.Split "" ":" = [""].
Proof. reflexivity. Qed.

Example SplitN_url :
  Strings.SplitN "ws://host:8080/a/b/c" "/" 4 = ["ws:"; ""; "host:8080"; "a/b/c"].
Proof. reflexivity. Qed.

Example Atoi_plain : Strconv.Atoi "120" = Some 120%Z.
Proof. reflexivity. Qed.

Example Atoi_signs :
  Strconv.Atoi "+7" = Some 7%Z /\ Strconv.Atoi "-7" = Some (-7)%Z
  /\ Strconv.Atoi "-" = None /\ Strconv.Atoi "" = None
  /\ Strconv.Atoi "4 0" = None /\ Strconv.Atoi "0x10" = None.
Proof. repeat split; reflexivity. Qed.

Example Atoi_range :
  Strconv.Atoi "9223372036854775807" = Some (2 ^ 63 - 1)%Z
  /\ Strconv.Atoi "9223372036854775808" = None
  /\ Strconv.Atoi "-9223372036854775808" = Some (- 2 ^ 63)%Z.
Proof. repeat split; vm_compute; reflexivity. Qed.

Example FormatInt_samples :
  Strconv.FormatInt 0 = "0" /\ Strconv.FormatInt 3725 = "3725"
  /\ Strconv.FormatInt (-42) = "-42".
Proof. repeat split; reflexivity. Qed.

Example durationStr_samples :
  Elapsed.durationStr (45 * Time.Second)%Z = "45 seconds"
  /\ Elapsed.durationStr (125 * Time.Second)%Z = "2 minutes, 5 seconds"
  /\ Elapsed.durationStr (3725 * Time.Second)%Z = "1 hours, 2 minutes, 5 seconds"
  /\ Elapsed.durationStr (3725 * Time.Second + 999999999)%Z = "1 hours, 2 minutes, 5 seconds".
Proof. repeat split; vm_compute; reflexivity. Qed.

(** The model of [float64] on known values: the double nearest to [0.1],
    a tie that goes to the even neighbour, and the next odd integer, which
    goes up. *)
Example round_samples :
  (Float64.round (1 # 10) == 3602879701896397 # 36028797018963968)%Q
  /\ (Float64.round (inject_Z (2 ^ 53 + 1)) == inject_Z (2 ^ 53))%Q
  /\ (Float64.round (inject_Z (2 ^ 53 + 3)) == inject_Z (2 ^ 53 + 4))%Q
  /\ (Float64.round (- (1 # 3)) == - (6004799503160661 # 18014398509481984))%Q.
Proof. repeat split; vm_compute; reflexivity. Qed.

(** Away from whole seconds the [float64] sum can round up to the next
    integer: one nanosecond before 4097 hours, [Hours] is already 4097. *)
Example hours_round_up :
  Elapsed.hours (4097 * Time.Hour - 1)%Z = 4097%Z
  /\ ((4097 * Time.Hour - 1) / Time.Hour)%Z = 4096%Z.
Proof. split; vm_compute; reflexivity. Qed.

(** * Properties *)

(** ** Strings *)

#[local] Arguments String.append !_ _ / : simpl nomatch.

Section StringFacts.
Implicit Types (s a b : string) (c : ascii).

Lemma length_append a b :
  String.length (a ++ b) = (String.length a + String.length b)%nat.
Proof. induction a as [|x a IH]; simpl; [reflexivity | now rewrite IH]. Qed.

Lemma append_nil_r a : a ++ "" = a.
Proof. induction a as [|x a IH]; simpl; [reflexivity | now rewrite IH]. Qed.

Lemma append_assoc a b s : (a ++ b) ++ s = a ++ (b ++ s).
Proof. induction a as [|x a IH]; simpl; [reflexivity | now rewrite IH]. Qed.

Lemma substring_0_0 s : String.substring 0 0 s = "".
Proof. now destruct s. Qed.

Lemma substring_all s : String.substring 0 (String.length s) s = s.
Proof. induction s as [|x s IH]; simpl; [reflexivity | now rewrite IH]. Qed.

Lemma substring_prefix a b :
  String.substring 0 (String.length a) (a ++ b) = a.
Proof.
  induction a as [|x a IH]; simpl; [apply substring_0_0 | now rewrite IH].
Qed.

Lemma substring_suffix a b :
  String.substring (String.length a) (String.length b) (a ++ b) = b.
Proof. induction a as [|x a IH]; simpl; [apply substring_all | exact IH]. Qed.

Lemma slice_prefix a b : Strings.slice (a ++ b) 0 (String.length a) = a.
Proof.
  unfold Strings.slice. rewrite Nat.sub_0_r. apply substring_prefix.
Qed.

Lemma slice_from_append a b : Strings.slice_from (a ++ b) (String.length a) = b.
Proof.
  unfold Strings.slice_from, Strings.slice. rewrite length_append.
  replace (String.length a + String.length b - String.length a)%nat
    with (String.length b) by lia.
  apply substring_suffix.
Qed.

Lemma HasPrefix_append a b : Strings.HasPrefix (a ++ b) a = true.
Proof.
  unfold Strings.HasPrefix. rewrite slice_prefix, String.eqb_refl, length_append.
  rewrite andb_true_r. apply Nat.leb_le. lia.
Qed.

Lemma substring_split s n :
  (n <= String.length s)%nat ->
  s = String.substring 0 n s ++ String.substring n (String.length s - n) s.
Proof.
  revert n. induction s as [|x s IH]; intros [|n] Hn; simpl in *;
    try reflexivity; try lia.
  - now rewrite substring_all.
  - f_equal. apply IH. lia.
Qed.

Lemma HasPrefix_inv s a :
  Strings.HasPrefix s a = true ->
  s = a ++ Strings.slice_from s (String.length a).
Proof.
  unfold Strings.HasPrefix, Strings.slice_from, Strings.slice.
  rewrite Nat.sub_0_r. intros H. apply andb_true_iff in H as [Hl He].
  apply Nat.leb_le in Hl. apply String.eqb_eq in He.
  rewrite <- He at 1. now apply substring_split.
Qed.

Lemma TrimPrefix_append a b : Strings.TrimPrefix (a ++ b) a = b.
Proof.
  unfold Strings.TrimPrefix. rewrite HasPrefix_append. apply slice_from_append.
Qed.

Lemma IndexByte_append_None a b c :
  Strings.IndexByte a c = None ->
  Strings.IndexByte (a ++ b) c =
    match Strings.IndexByte b c with
    | Some i => Some (String.length a + i)%nat
    | None => None
    end.
Proof.
  induction a as [|x a IH]; simpl.
  - intros _. now destruct (Strings.IndexByte b c).
  - destruct (Ascii.eqb x c); [discriminate|].
    destruct (Strings.IndexByte a c) eqn:E; [discriminate|]. intros _.
    rewrite IH by reflexivity. now destruct (Strings.IndexByte b c).
Qed.

Lemma Count_append a b c :
  Strings.Count (a ++ b) c = (Strings.Count a c + Strings.Count b c)%nat.
Proof. induction a as [|x a IH]; simpl; [reflexivity | rewrite IH; lia]. Qed.

Lemma Count_None a c : Strings.IndexByte a c = None -> Strings.Count a c = O.
Proof.
  induction a as [|x a IH]; simpl; [reflexivity|].
  destruct (Ascii.eqb x c); [discriminate|].
  destruct (Strings.IndexByte a c); [discriminate|]. intros _. now rewrite IH.
Qed.

Lemma Count_0_None a c : Strings.Count a c = O -> Strings.IndexByte a c = None.
Proof.
  induction a as [|x a IH]; simpl; [reflexivity|].
  destruct (Ascii.eqb x c); [discriminate|]. simpl. intros H. now rewrite IH.
Qed.

(** Two fields around one separator are split into exactly these fields. *)
Lemma Split_two_fields a b c :
  Strings.IndexByte a c = None -> Strings.IndexByte b c = None ->
  Strings.Split (a ++ String c b) c = [a; b].
Proof.
  intros Ha Hb. unfold Strings.Split.
  rewrite Count_append. simpl. rewrite Ascii.eqb_refl.
  rewrite (Count_None a c Ha), (Count_None b c Hb). simpl.
  rewrite (IndexByte_append_None a (String c b) c Ha). simpl.
  rewrite Ascii.eqb_refl, Nat.add_0_r.
  rewrite slice_prefix. f_equal.
  replace (S (String.length a)) with (String.length (a ++ String c "")).
  - replace (a ++ String c b) with ((a ++ String c "") ++ b).
    + now rewrite slice_from_append.
    + now rewrite append_assoc.
  - rewrite length_append. simpl. lia.
Qed.

End StringFacts.

(** ** Decimal conversions *)

Section DecimalFacts.
Local Open Scope Z_scope.
Import Strconv.

Lemma byte_of_ascii_of_byte b :
  Strconv.byte_of (Strconv.ascii_of_byte b) = b mod 256.
Proof.
  unfold Strconv.byte_of, Strconv.ascii_of_byte.
  assert (0 <= b mod 256 < 256) by (apply Z.mod_pos_bound; lia).
  rewrite N_ascii_embedding; [apply Z2N.id; lia|].
  apply N2Z.inj_lt. rewrite Z2N.id by lia. simpl. lia.
Qed.

Lemma digit_value d :
  0 <= d <= 9 ->
  (Strconv.byte_of (Strconv.ascii_of_byte (48 + d)) - 48) mod 256 = d.
Proof.
  intros Hd. rewrite byte_of_ascii_of_byte.
  rewrite (Z.mod_small (48 + d)) by lia.
  replace (48 + d - 48) with d by lia. apply Z.mod_small. lia.
Qed.

Lemma digit_is_digit d :
  0 <= d <= 9 -> is_digit (Strconv.ascii_of_byte (48 + d)) = true.
Proof.
  intros Hd. unfold is_digit. rewrite byte_of_ascii_of_byte.
  rewrite (Z.mod_small (48 + d)) by lia.
  apply andb_true_iff. split; apply Z.leb_le; lia.
Qed.

Lemma last_digit u : 0 <= u -> 0 <= u - u / 10 * 10 <= 9.
Proof.
  intros Hu. pose proof (Z.div_mod u 10 ltac:(lia)).
  pose proof (Z.mod_pos_bound u 10 ltac:(lia)). lia.
Qed.

Lemma fmt_digits_S fuel u buf :
  Strconv.fmt_digits (S fuel) u buf =
  if 10 <=? u then
    Strconv.fmt_digits fuel (u / 10)
      (String (Strconv.ascii_of_byte (48 + u - u / 10 * 10)) buf)
  else String (Strconv.ascii_of_byte (48 + u)) buf.
Proof. reflexivity. Qed.

(** Reading back what the digit loop wrote gives the number. *)
Lemma parse_fmt_digits n : forall u buf,
  0 <= u < 2 ^ Z.of_nat (S n) ->
  Strconv.parse_digits (Strconv.fmt_digits (S n) u buf) 0
  = Strconv.parse_digits buf u.
Proof.
  induction n as [|n IH]; intros u buf Hu.
  - change (2 ^ Z.of_nat 1) with 2 in Hu.
    rewrite fmt_digits_S. destruct (Z.leb_spec 10 u) as [?|_]; [lia|].
    cbn [Strconv.parse_digits]. rewrite digit_value by lia.
    destruct (Z.ltb_spec 9 u) as [?|_]; [lia|]. f_equal.
  - rewrite Nat2Z.inj_succ, Z.pow_succ_r in Hu by lia.
    rewrite fmt_digits_S. destruct (Z.leb_spec 10 u) as [Hge|Hlt].
    + pose proof (last_digit u ltac:(lia)) as Hd.
      assert (0 <= u / 10 < 2 ^ Z.of_nat (S n)) as Hq.
      { split; [apply Z.div_pos; lia|]. apply Z.div_lt_upper_bound; lia. }
      rewrite (IH _ _ Hq). cbn [Strconv.parse_digits].
      replace (48 + u - u / 10 * 10) with (48 + (u - u / 10 * 10)) by lia.
      rewrite digit_value by exact Hd.
      destruct (Z.ltb_spec 9 (u - u / 10 * 10)) as [?|_]; [lia|].
      f_equal. lia.
    + cbn [Strconv.parse_digits]. rewrite digit_value by lia.
      destruct (Z.ltb_spec 9 u) as [?|_]; [lia|]. f_equal.
Qed.

Lemma fmt_digits_all_digits fuel : forall u buf,
  0 <= u -> all_digits buf = true ->
  all_digits (Strconv.fmt_digits fuel u buf) = true.
Proof.
  induction fuel as [|fuel IH]; intros u buf Hu Hbuf; [exact Hbuf|].
  rewrite fmt_digits_S. destruct (Z.leb_spec 10 u) as [Hge|Hlt].
  - apply IH; [apply Z.div_pos; lia|]. cbn [all_digits]. rewrite Hbuf.
    replace (48 + u - u / 10 * 10) with (48 + (u - u / 10 * 10)) by lia.
    now rewrite digit_is_digit by (apply last_digit; lia).
  - cbn [all_digits]. rewrite Hbuf. now rewrite digit_is_digit by lia.
Qed.

Lemma fmt_digits_nonempty fuel : forall u buf,
  Strconv.fmt_digits (S fuel) u buf <> "".
Proof.
  induction fuel as [|fuel IH]; intros u buf; rewrite fmt_digits_S.
  - destruct (10 <=? u); discriminate.
  - destruct (10 <=? u); [apply IH | discriminate].
Qed.

Lemma log2_fuel u : 0 <= u -> 0 <= u < 2 ^ Z.of_nat (S (Z.to_nat (Z.log2 u))).
Proof.
  intros Hu. split; [exact Hu|].
  rewrite Nat2Z.inj_succ, Z2Nat.id by apply Z.log2_nonneg.
  destruct (Z.eq_dec u 0) as [->|Hne]; [reflexivity|].
  apply Z.log2_spec. lia.
Qed.

Lemma all_digits_no_byte s c :
  is_digit c = false -> all_digits s = true -> Strings.IndexByte s c = None.
Proof.
  intros Hc. induction s as [|x s IH]; simpl; [reflexivity|].
  intros H. apply andb_true_iff in H as [Hx Hs].
  destruct (Ascii.eqb_spec x c) as [->|_]; [congruence|].
  now rewrite IH.
Qed.

(** The digits of a non-negative number are read back as that number. *)
Lemma Atoi_digits s u :
  s <> "" -> all_digits s = true -> Strconv.parse_digits s 0 = Some u ->
  u < 2 ^ 63 -> Strconv.Atoi s = Some u.
Proof.
  intros Hne Hd Hp Hu. destruct s as [|c0 rest]; [congruence|].
  unfold Strconv.Atoi.
  assert (is_digit c0 = true) as Hc0
    by (simpl in Hd; now apply andb_true_iff in Hd as [? _]).
  destruct (Ascii.eqb_spec c0 "-") as [->|_]; [discriminate|].
  destruct (Ascii.eqb_spec c0 "+") as [->|_]; [discriminate|].
  cbn [orb]. rewrite Hp.
  destruct (Z.leb_spec (2 ^ 63) u); [lia | reflexivity].
Qed.

(** [%d] followed by [Atoi] is the identity on [int]. *)
Lemma Atoi_FormatInt v :
  - 2 ^ 63 <= v < 2 ^ 63 -> Strconv.Atoi (Strconv.FormatInt v) = Some v.
Proof.
  intros Hv. unfold Strconv.FormatInt.
  pose proof (log2_fuel (Z.abs v) (Z.abs_nonneg v)) as Hf.
  set (ds := Strconv.fmt_digits _ _ _).
  assert (Strconv.parse_digits ds 0 = Some (Z.abs v)) as Hp
    by (unfold ds; now rewrite parse_fmt_digits).
  assert (all_digits ds = true) as Hd
    by (apply fmt_digits_all_digits; [apply Z.abs_nonneg | reflexivity]).
  assert (ds <> "") as Hne by apply fmt_digits_nonempty.
  destruct (Z.ltb_spec v 0) as [Hneg|Hpos].
  - unfold Strconv.Atoi. rewrite Ascii.eqb_refl. cbn [orb].
    destruct ds as [|c r]; [congruence|]. rewrite Hp.
    destruct (Z.ltb_spec (2 ^ 63) (Z.abs v)); [lia|]. f_equal. lia.
  - rewrite (Atoi_digits ds (Z.abs v)); try assumption; [f_equal|]; lia.
Qed.

Lemma FormatInt_no_colon v : Strings.IndexByte (Strconv.FormatInt v) ":" = None.
Proof.
  unfold Strconv.FormatInt.
  assert (Strings.IndexByte
            (Strconv.fmt_digits (S (Z.to_nat (Z.log2 (Z.abs v)))) (Z.abs v) "") ":"
          = None) as H.
  { apply all_digits_no_byte; [reflexivity|].
    apply fmt_digits_all_digits; [apply Z.abs_nonneg | reflexivity]. }
  destruct (v <? 0); [|exact H].
  set (ds := Strconv.fmt_digits _ _ _) in *.
  change (match Strings.IndexByte ds ":" with
          | Some i => Some (S i)
          | None => None
          end = None).
  now rewrite H.
Qed.

End DecimalFacts.

(** ** The resize decoder of the server *)

Section ResizeFacts.
Local Open Scope Z_scope.

Lemma resize_guard rest :
  rest <> "" ->
  (7 <? String.length ("resize:" ++ rest))%nat
  && String.eqb (Strings.slice ("resize:" ++ rest) 0 7) "resize:" = true.
Proof.
  intros Hne. pose proof (slice_prefix "resize:" rest) as Hp.
  change (String.length "resize:") with 7%nat in Hp. rewrite Hp.
  rewrite String.eqb_refl, andb_true_r, length_append.
  apply Nat.ltb_lt. destruct rest; [congruence | simpl; lia].
Qed.

Lemma resize_rest rest : Strings.slice_from ("resize:" ++ rest) 7 = rest.
Proof. exact (slice_from_append "resize:" rest). Qed.

(** The decoder on a payload longer than its prefix, in terms of the
    fields of the payload. *)
Lemma handleText_resize rest s :
  rest <> "" ->
  Server.handleText ("resize:" ++ rest) s =
  match Spec.resize_fields rest with
  | Some (cols, rows) =>
      if (0 <? cols) && (0 <? rows) then
        match Pty.Setsize (Server.ptmx s)
                {| Pty.Rows := Server.uint16 rows; Pty.Cols := Server.uint16 cols;
                   Pty.X := 0; Pty.Y := 0 |} with
        | (t, Some err) =>
            Server.log {| Zerolog.level := Zerolog.ErrorLevel;
                          Zerolog.msg := "Error resizing pty";
                          Zerolog.fields := [("error", err)] |}
                       (Server.with_ptmx t s)
        | (t, None) => Server.with_ptmx t s
        end
      else s
  | None => s
  end.
Proof.
  intros Hne. unfold Server.handleText, Spec.resize_fields.
  rewrite (resize_guard rest Hne), resize_rest.
  destruct (Strings.Split rest ":") as [|a [|b [|c l]]]; try reflexivity.
  cbn [length Nat.eqb nth].
  destruct (Strconv.Atoi a) as [cols|], (Strconv.Atoi b) as [rows|]; reflexivity.
Qed.

Lemma handleText_resize_open rest cols rows s :
  Pty.closed (Server.ptmx s) = false ->
  Spec.resize_fields rest = Some (cols, rows) -> 0 < cols -> 0 < rows ->
  Server.handleText ("resize:" ++ rest) s
  = Spec.resized (Server.uint16 cols) (Server.uint16 rows) s.
Proof.
  intros Hopen Hf Hc Hr.
  assert (rest <> "") as Hne by (intros ->; discriminate Hf).
  rewrite (handleText_resize rest s Hne), Hf.
  destruct (Z.ltb_spec 0 cols); [|lia]. destruct (Z.ltb_spec 0 rows); [|lia].
  cbn [andb]. unfold Pty.Setsize. rewrite Hopen. reflexivity.
Qed.

Lemma handleText_malformed rest s :
  rest <> "" -> Spec.malformed rest ->
  Server.handleText ("resize:" ++ rest) s = s.
Proof.
  intros Hne Hm. rewrite (handleText_resize rest s Hne).
  unfold Spec.malformed in Hm.
  destruct (Spec.resize_fields rest) as [[cols rows]|]; [|reflexivity].
  destruct (Z.ltb_spec 0 cols), (Z.ltb_spec 0 rows); try reflexivity. lia.
Qed.

(** What the client sends is read back as the two numbers. *)
Lemma resize_fields_encoded cols rows :
  - 2 ^ 63 <= cols < 2 ^ 63 -> - 2 ^ 63 <= rows < 2 ^ 63 ->
  Spec.resize_fields (Strconv.FormatInt cols ++ ":" ++ Strconv.FormatInt rows)
  = Some (cols, rows).
Proof.
  intros Hc Hr. unfold Spec.resize_fields.
  change (":" ++ Strconv.FormatInt rows) with (String ":" (Strconv.FormatInt rows)).
  rewrite Split_two_fields by apply FormatInt_no_colon.
  now rewrite !Atoi_FormatInt.
Qed.

Lemma uint16_small v : 0 <= v < 65536 -> Server.uint16 v = v.
Proof. intros Hv. unfold Server.uint16. apply Z.mod_small. simpl. lia. Qed.

End ResizeFacts.

(** ** The control protocol: claims C1, C2, C8 and C9 *)

Section ControlProtocol.
Local Open Scope Z_scope.

Lemma handleMessage_text p s :
  Server.handleMessage Websocket.TextMessage p s = Server.handleText p s.
Proof. reflexivity. Qed.

Lemma inboundPump_message messageType p reads s :
  Server.inboundPump (Websocket.Message messageType p :: reads) s
  = Server.inboundPump reads (Server.handleMessage messageType p s).
Proof. reflexivity. Qed.

(** C1, as amended: for every [cols] and [rows] from 1 to 65535, the
    text message [resize:<cols>:<rows>] that the client encodes makes the
    server's inbound pump set the window size of an open PTY to exactly
    [cols] by [rows]; nothing else of the session changes. *)
Theorem resize_roundtrip cols rows s :
  0 < cols <= 65535 -> 0 < rows <= 65535 ->
  Pty.closed (Server.ptmx s) = false ->
  Server.inboundPump [Client.sendResize cols rows] s = Spec.resized cols rows s.
Proof.
  intros Hc Hr Hopen. unfold Client.sendResize, Client.resizeMsg.
  rewrite inboundPump_message, handleMessage_text. cbn [Server.inboundPump].
  rewrite (handleText_resize_open _ cols rows s Hopen); try lia.
  - now rewrite !uint16_small by lia.
  - apply resize_fields_encoded; lia.
Qed.

(** C1, an instance: [resize:120:40] sets 120 columns by 40 rows. *)
Lemma resize_roundtrip_witness :
  Server.inboundPump [Client.sendResize 120 40] Spec.example_session
  = Spec.resized 120 40 Spec.example_session.
Proof.
  apply (resize_roundtrip 120 40 Spec.example_session); [lia | lia | reflexivity].
Defined.

(** C1 as stated fails above 65535: the client encodes [cols = 65536],
    [rows = 40], both positive, and the server sets 0 columns. *)
Lemma resize_roundtrip_counterexample :
  0 < 65536 /\ 0 < 40
  /\ Pty.closed (Server.ptmx Spec.example_session) = false
  /\ Server.inboundPump [Client.sendResize 65536 40] Spec.example_session
     = Spec.resized 0 40 Spec.example_session
  /\ Spec.resized 0 40 Spec.example_session
     <> Spec.resized 65536 40 Spec.example_session.
Proof.
  repeat split; try lia; try (vm_compute; reflexivity).
  intros H. discriminate H.
Qed.

(** C2, as amended: for every text message whose payload is longer than
    the prefix [resize:], begins with it, and whose remainder does not parse
    as two decimal integers or has a dimension that is not positive, the
    server leaves the whole session as it was: no resize, nothing written to
    the PTY, nothing logged, and the pump goes on with the next message. *)
Theorem malformed_resize_ignored rest s reads :
  rest <> "" -> Spec.malformed rest ->
  Server.handleMessage Websocket.TextMessage ("resize:" ++ rest) s = s
  /\ Server.inboundPump
       (Websocket.Message Websocket.TextMessage ("resize:" ++ rest) :: reads) s
     = Server.inboundPump reads s.
Proof.
  intros Hne Hm.
  assert (Server.handleMessage Websocket.TextMessage ("resize:" ++ rest) s = s) as H
    by (rewrite handleMessage_text; now apply handleText_malformed).
  split; [exact H | now rewrite inboundPump_message, H].
Qed.

(** C2, an instance: [resize:0:40] is dropped. *)
Lemma malformed_resize_ignored_witness :
  Server.handleMessage Websocket.TextMessage ("resize:" ++ "0:40")
    Spec.example_session = Spec.example_session
  /\ Server.inboundPump
       [Websocket.Message Websocket.TextMessage ("resize:" ++ "0:40")]
       Spec.example_session
     = Server.inboundPump [] Spec.example_session.
Proof.
  apply (malformed_resize_ignored "0:40" Spec.example_session []).
  - discriminate.
  - vm_compute. left. discriminate.
Defined.

(** C2 as stated fails on the payload [resize:] itself: it begins with
    the prefix, its remainder is no pair of integers, and the server writes
    it to the PTY. *)
Lemma malformed_resize_counterexample :
  Spec.malformed ""
  /\ Server.handleMessage Websocket.TextMessage ("resize:" ++ "")
       Spec.example_session
     = Spec.typed "resize:" Spec.example_session
  /\ Pty.written (Server.ptmx (Spec.typed "resize:" Spec.example_session))
     = ["resize:"]
  /\ Spec.typed "resize:" Spec.example_session <> Spec.example_session.
Proof.
  repeat split; try exact I; try (vm_compute; reflexivity).
  intros H. discriminate H.
Qed.

(** C8, as amended: for every resize message whose two fields parse as
    positive integers, the server sets the window of an open PTY to
    [cols mod 65536] by [rows mod 65536]; above 65535 the size set differs
    from the size asked for (65537 gives 1) and can be zero (65536 gives
    0). *)
Theorem resize_truncated :
  (forall rest cols rows s,
      Pty.closed (Server.ptmx s) = false ->
      Spec.resize_fields rest = Some (cols, rows) -> 0 < cols -> 0 < rows ->
      Server.handleMessage Websocket.TextMessage ("resize:" ++ rest) s
      = Spec.resized (cols mod 65536) (rows mod 65536) s)
  /\ (exists cols rows,
         65535 < cols /\ 65535 < rows
         /\ Pty.size (Server.ptmx
              (Server.inboundPump [Client.sendResize cols rows] Spec.example_session))
            = {| Pty.Rows := 0; Pty.Cols := 1; Pty.X := 0; Pty.Y := 0 |}).
Proof.
  split.
  - intros rest cols rows s Hopen Hf Hc Hr. rewrite handleMessage_text.
    exact (handleText_resize_open rest cols rows s Hopen Hf Hc Hr).
  - exists 65537, 65536. split; [lia|]. split; [lia|]. vm_compute. reflexivity.
Qed.

(** C8, an instance: [resize:65537:40] sets 1 column by 40 rows. *)
Lemma resize_truncated_witness :
  Server.handleMessage Websocket.TextMessage ("resize:" ++ "65537:40")
    Spec.example_session
  = Spec.resized (65537 mod 65536) (40 mod 65536) Spec.example_session.
Proof.
  apply (proj1 resize_truncated "65537:40" 65537 40 Spec.example_session);
    [reflexivity | vm_compute; reflexivity | lia | lia].
Defined.

(** C8 as stated fails once teardown has closed the PTY, while the
    inbound pump still reads: the fields of [resize:65537:40] parse as
    positive integers, and the server sets no size, neither 1 by 40 nor any
    other; the window stays at 80 by 24. *)
Lemma resize_truncated_counterexample :
  Spec.resize_fields "65537:40" = Some (65537, 40)
  /\ Pty.closed
       (Server.ptmx (Server.closeSession Spec.quick_exit Spec.example_session))
     = true
  /\ Pty.size
       (Server.ptmx
          (Server.handleMessage Websocket.TextMessage ("resize:" ++ "65537:40")
             (Server.closeSession Spec.quick_exit Spec.example_session)))
     = {| Pty.Rows := 24; Pty.Cols := 80; Pty.X := 0; Pty.Y := 0 |}
  /\ Pty.size
       (Server.ptmx
          (Spec.resized (65537 mod 65536) (40 mod 65536)
             (Server.closeSession Spec.quick_exit Spec.example_session)))
     = {| Pty.Rows := 40; Pty.Cols := 1; Pty.X := 0; Pty.Y := 0 |}
  /\ Server.handleMessage Websocket.TextMessage ("resize:" ++ "65537:40")
       (Server.closeSession Spec.quick_exit Spec.example_session)
     <> Spec.resized (65537 mod 65536) (40 mod 65536)
          (Server.closeSession Spec.quick_exit Spec.example_session).
Proof.
  split; [vm_compute; reflexivity|].
  split; [vm_compute; reflexivity|].
  split; [vm_compute; reflexivity|].
  split; [vm_compute; reflexivity|].
  intros H.
  apply (f_equal (fun s => Pty.closed (Server.ptmx s))) in H.
  vm_compute in H. discriminate H.
Qed.

(** C9: a message whose type is not text changes nothing of the
    session: nothing is written to the PTY, no resize is applied, nothing is
    logged, and the pump goes on with the next message. *)
Theorem non_text_discarded messageType p s reads :
  messageType <> Websocket.TextMessage ->
  Server.handleMessage messageType p s = s
  /\ Server.inboundPump (Websocket.Message messageType p :: reads) s
     = Server.inboundPump reads s.
Proof.
  intros Hne.
  assert (Server.handleMessage messageType p s = s) as H.
  { unfold Server.handleMessage.
    destruct (Z.eqb_spec messageType Websocket.TextMessage); [contradiction|].
    reflexivity. }
  split; [exact H | now rewrite inboundPump_message, H].
Qed.

(** C9, an instance: a binary message that spells a resize request. *)
Lemma non_text_discarded_witness :
  Server.handleMessage Websocket.BinaryMessage "resize:120:40"
    Spec.example_session = Spec.example_session
  /\ Server.inboundPump
       [Websocket.Message Websocket.BinaryMessage "resize:120:40";
        Websocket.Message Websocket.TextMessage "ls"]
       Spec.example_session
     = Server.inboundPump [Websocket.Message Websocket.TextMessage "ls"]
         Spec.example_session.
Proof.
  apply (non_text_discarded Websocket.BinaryMessage "resize:120:40"
           Spec.example_session [Websocket.Message Websocket.TextMessage "ls"]).
  discriminate.
Defined.

End ControlProtocol.

(** ** The disconnect report of the client: claim C3 *)

Section Disconnect.

Lemma disconnect_fired since reason st :
  Client.once_done st = true -> Client.disconnect since reason st = st.
Proof. intros H. unfold Client.disconnect, Client.Once_Do. now rewrite H. Qed.

Lemma disconnect_first since reason st :
  Client.once_done st = false ->
  Client.disconnect since reason st
  = {| Client.once_done := true;
       Client.hasDisconnected := true;
       Client.stdout :=
         (Client.stdout st ++ [Client.disconnect_line since reason])%list |}.
Proof. intros H. unfold Client.disconnect, Client.Once_Do. now rewrite H. Qed.

Lemma disconnect_all_fired calls : forall st,
  Client.once_done st = true -> Client.disconnect_all calls st = st.
Proof.
  induction calls as [|[since reason] calls IH]; intros st H; [reflexivity|].
  unfold Client.disconnect_all in *. cbn [fold_left fst snd].
  rewrite (disconnect_fired since reason st H). now apply IH.
Qed.

(** The report line is the reason between fixed texts: two lines of the
    same elapsed time are the same only when their reasons are. *)
Lemma append_inv_head (a x y : string) : a ++ x = a ++ y -> x = y.
Proof.
  induction a as [|c a IH]; simpl; intros H; [exact H|].
  injection H as H. now apply IH.
Qed.

Lemma append_inv_tail (t : string) : forall x y, x ++ t = y ++ t -> x = y.
Proof.
  assert (forall a b : string,
             String.length (a ++ b) = (String.length a + String.length b)%nat)
    as Hlen.
  { induction a as [|c a IH]; intros b; simpl; [reflexivity|]. now rewrite IH. }
  induction x as [|c x IH]; intros [|d y] H; simpl in H.
  - reflexivity.
  - apply (f_equal String.length) in H. simpl in H. rewrite Hlen in H. lia.
  - apply (f_equal String.length) in H. simpl in H. rewrite Hlen in H. lia.
  - injection H as -> H. f_equal. now apply IH.
Qed.

Lemma disconnect_line_reason since reason1 reason2 :
  Client.disconnect_line since reason1 = Client.disconnect_line since reason2 ->
  reason1 = reason2.
Proof.
  unfold Client.disconnect_line. intros H.
  do 5 apply append_inv_head in H.
  now apply append_inv_tail in H.
Qed.

(** C3: whatever calls of [disconnect] follow the first one, with whatever
    reasons, exactly one line is printed: carriage return, erase-line
    sequence, "Disconnected from terminal server after", the elapsed time of
    the first call, the reason of the first call in brackets, and a line
    feed.  It is the line of no other reason, and every later call leaves
    the state as it is. *)
Theorem disconnect_single_fire since1 reason1 later st :
  Client.once_done st = false ->
  Client.stdout (Client.disconnect_all ((since1, reason1) :: later) st)
  = (Client.stdout st
     ++ [String "013" (String "027"
           ("[KDisconnected from terminal server after "
            ++ Elapsed.durationStr since1 ++ " (" ++ reason1 ++ ")"
            ++ String "010" ""))])%list
  /\ Client.stdout (Client.disconnect_all ((since1, reason1) :: later) st)
     = (Client.stdout st ++ [Client.disconnect_line since1 reason1])%list
  /\ (forall reason,
         Client.stdout (Client.disconnect_all ((since1, reason1) :: later) st)
         = (Client.stdout st ++ [Client.disconnect_line since1 reason])%list ->
         reason = reason1)
  /\ Client.disconnect_all ((since1, reason1) :: later) st
     = Client.disconnect since1 reason1 st
  /\ (forall since reason,
         Client.disconnect since reason (Client.disconnect since1 reason1 st)
         = Client.disconnect since1 reason1 st).
Proof.
  intros Hfresh.
  pose proof (disconnect_first since1 reason1 st Hfresh) as H1.
  assert (Client.once_done (Client.disconnect since1 reason1 st) = true) as Hd
    by now rewrite H1.
  assert (Client.disconnect_all ((since1, reason1) :: later) st
          = Client.disconnect since1 reason1 st) as Hall.
  { unfold Client.disconnect_all. cbn [fold_left fst snd].
    exact (disconnect_all_fired later _ Hd). }
  split; [|split; [|split; [|split]]].
  - rewrite Hall, H1. reflexivity.
  - rewrite Hall, H1. reflexivity.
  - intros reason H. rewrite Hall, H1 in H. cbn [Client.stdout] in H.
    apply app_inv_head in H.
    assert (Client.disconnect_line since1 reason1
            = Client.disconnect_line since1 reason) as E by congruence.
    symmetry. exact (disconnect_line_reason since1 reason1 reason E).
  - exact Hall.
  - intros since reason. now apply disconnect_fired.
Qed.

(** C3, an instance: three calls with three reasons after 45, 46 and 47
    seconds print the line of the first call only. *)
Lemma disconnect_single_fire_witness :
  Client.once_done Client.connected = false
  /\ Client.stdout
       (Client.disconnect_all
          [((45 * Time.Second)%Z, "server sent close message");
           ((46 * Time.Second)%Z, "connection error");
           ((47 * Time.Second)%Z, "client closed")]
          Client.connected)
     = (Client.stdout Client.connected
        ++ [String "013" (String "027"
              ("[KDisconnected from terminal server after "
               ++ Elapsed.durationStr (45 * Time.Second)%Z
               ++ " (" ++ "server sent close message" ++ ")"
               ++ String "010" ""))])%list.
Proof.
  split; [reflexivity|].
  apply (disconnect_single_fire (45 * Time.Second)%Z "server sent close message"
           [((46 * Time.Second)%Z, "connection error");
            ((47 * Time.Second)%Z, "client closed")]
           Client.connected).
  reflexivity.
Defined.

(** The same line, written out. *)
Example disconnect_line_sample :
  Client.disconnect_line (45 * Time.Second)%Z "server sent close message"
  = String "013" (String "027"
      ("[KDisconnected from terminal server after 45 seconds "
       ++ "(server sent close message)" ++ String "010" "")).
Proof. vm_compute. reflexivity. Qed.

End Disconnect.

(** ** The dialer of the client: claim C10 *)

Section DialerTimeout.
Context {Fn : Type}.
Implicit Types (d : Websocket.Dialer Fn) (h : gmap positive (Websocket.Dialer Fn)).

Lemma Connect_dial_installed c l d h :
  h !! l = Some d ->
  Client.Connect_dial (Client.SetCustomDialer c (Some l)) h
  = ({| Client.dial_receiver :=
          Some (Websocket.set_HandshakeTimeout (5 * Time.Second)%Z d);
        Client.dial_url := Client.URL c |},
     <[l := Websocket.set_HandshakeTimeout (5 * Time.Second)%Z d]> h).
Proof.
  intros Hl. unfold Client.Connect_dial, Client.SetCustomDialer.
  cbn [Client.dialer Client.URL].
  rewrite lookup_alter_eq, Hl. cbn [fmap option_fmap option_map].
  f_equal. apply map_eq. intros i. destruct (decide (l = i)) as [->|Hne].
  - now rewrite lookup_alter_eq, lookup_insert_eq, Hl.
  - now rewrite lookup_alter_ne, lookup_insert_ne.
Qed.

(** C10: for every dialer installed with [SetCustomDialer], [Connect]
    dials with a handshake timeout of 5 seconds, whatever timeout the
    dialer had, and with every other field as it was; the assignment is
    made in the dialer itself, and no other dialer of the heap changes. *)
Theorem Connect_overwrites_timeout c l d h :
  h !! l = Some d ->
  exists d',
    Client.dial_receiver (fst (Client.Connect_dial (Client.SetCustomDialer c (Some l)) h))
    = Some d'
    /\ snd (Client.Connect_dial (Client.SetCustomDialer c (Some l)) h) !! l = Some d'
    /\ Websocket.HandshakeTimeout d' = (5 * Time.Second)%Z
    /\ Websocket.NetDial d' = Websocket.NetDial d
    /\ Websocket.NetDialContext d' = Websocket.NetDialContext d
    /\ Websocket.NetDialTLSContext d' = Websocket.NetDialTLSContext d
    /\ Websocket.Proxy d' = Websocket.Proxy d
    /\ Websocket.TLSClientConfig d' = Websocket.TLSClientConfig d
    /\ Websocket.ReadBufferSize d' = Websocket.ReadBufferSize d
    /\ Websocket.WriteBufferSize d' = Websocket.WriteBufferSize d
    /\ Websocket.WriteBufferPool d' = Websocket.WriteBufferPool d
    /\ Websocket.Subprotocols d' = Websocket.Subprotocols d
    /\ Websocket.EnableCompression d' = Websocket.EnableCompression d
    /\ Websocket.Jar d' = Websocket.Jar d
    /\ (forall l', l' <> l ->
          snd (Client.Connect_dial (Client.SetCustomDialer c (Some l)) h) !! l'
          = h !! l').
Proof.
  intros Hl. rewrite (Connect_dial_installed c l d h Hl). cbn [fst snd].
  exists (Websocket.set_HandshakeTimeout (5 * Time.Second)%Z d).
  split; [reflexivity|]. split; [apply lookup_insert_eq|].
  repeat (split; [reflexivity|]).
  intros l' Hne. now apply lookup_insert_ne.
Qed.

(** The dialer that [runClient] builds with a timeout of 10 seconds is
    used with 5 seconds. *)
Lemma runClient_dials_with_5_seconds (proxy : Fn) clientURL h :
  Client.dial_receiver (fst (Client.runClient_dial (Some proxy) clientURL h))
  = Some (Websocket.set_HandshakeTimeout (5 * Time.Second)%Z (Client.cliDialer proxy)).
Proof.
  unfold Client.runClient_dial.
  now rewrite (Connect_dial_installed _ _ (Client.cliDialer proxy))
    by apply lookup_insert_eq.
Qed.

(** Without a custom dialer the assignment changes the shared
    [websocket.DefaultDialer]. *)
Lemma Connect_changes_DefaultDialer url d h :
  h !! Client.DefaultDialer = Some d ->
  snd (Client.Connect_dial (Client.NewClient url) h) !! Client.DefaultDialer
  = Some (Websocket.set_HandshakeTimeout (5 * Time.Second)%Z d).
Proof.
  intros Hd. unfold Client.Connect_dial, Client.NewClient.
  cbn [Client.dialer snd]. now rewrite lookup_alter_eq, Hd.
Qed.

End DialerTimeout.

(** C10, an instance: the dialer of the command line, with its proxy and
    its timeout of 10 seconds, installed at location 7. *)
Lemma Connect_overwrites_timeout_witness :
  exists d' : Websocket.Dialer nat,
    Client.dial_receiver
      (fst (Client.Connect_dial
              (Client.SetCustomDialer (Client.NewClient "example.com") (Some 7%positive))
              {[ 7%positive := Client.cliDialer 1080%nat ]}))
    = Some d'
    /\ snd (Client.Connect_dial
              (Client.SetCustomDialer (Client.NewClient "example.com") (Some 7%positive))
              {[ 7%positive := Client.cliDialer 1080%nat ]}) !! 7%positive = Some d'
    /\ Websocket.HandshakeTimeout d' = (5 * Time.Second)%Z
    /\ Websocket.NetDial d' = Websocket.NetDial (Client.cliDialer 1080%nat)
    /\ Websocket.NetDialContext d' = Websocket.NetDialContext (Client.cliDialer 1080%nat)
    /\ Websocket.NetDialTLSContext d'
       = Websocket.NetDialTLSContext (Client.cliDialer 1080%nat)
    /\ Websocket.Proxy d' = Websocket.Proxy (Client.cliDialer 1080%nat)
    /\ Websocket.TLSClientConfig d' = Websocket.TLSClientConfig (Client.cliDialer 1080%nat)
    /\ Websocket.ReadBufferSize d' = Websocket.ReadBufferSize (Client.cliDialer 1080%nat)
    /\ Websocket.WriteBufferSize d' = Websocket.WriteBufferSize (Client.cliDialer 1080%nat)
    /\ Websocket.WriteBufferPool d' = Websocket.WriteBufferPool (Client.cliDialer 1080%nat)
    /\ Websocket.Subprotocols d' = Websocket.Subprotocols (Client.cliDialer 1080%nat)
    /\ Websocket.EnableCompression d'
       = Websocket.EnableCompression (Client.cliDialer 1080%nat)
    /\ Websocket.Jar d' = Websocket.Jar (Client.cliDialer 1080%nat)
    /\ (forall l', l' <> 7%positive ->
          snd (Client.Connect_dial
                 (Client.SetCustomDialer (Client.NewClient "example.com") (Some 7%positive))
                 {[ 7%positive := Client.cliDialer 1080%nat ]}) !! l'
          = ({[ 7%positive := Client.cliDialer 1080%nat ]}
               : gmap positive (Websocket.Dialer nat)) !! l').
Proof.
  apply (Connect_overwrites_timeout (Client.NewClient "example.com") 7%positive
           (Client.cliDialer 1080%nat) {[ 7%positive := Client.cliDialer 1080%nat ]}).
  apply lookup_singleton_eq.
Defined.

(** ** Teardown of a session: claim C4 *)

Section Teardown.
Local Open Scope Z_scope.

Lemma kills_call_Kill s :
  Server.kills (Server.call Server.Kill s) = S (Server.kills s).
Proof.
  unfold Server.kills, Server.call. cbn [Server.process_calls].
  rewrite List.filter_app, List.length_app. simpl. lia.
Qed.

Lemma kills_call_SIGTERM s :
  Server.kills (Server.call Server.SignalSIGTERM s) = Server.kills s.
Proof.
  unfold Server.kills, Server.call. cbn [Server.process_calls].
  rewrite List.filter_app, List.length_app. simpl. lia.
Qed.

Lemma kills_closeSession env s :
  Server.process_set s = true ->
  Server.kills (Server.closeSession env s)
  = match Server.select_done_or_timer (Server.done_after env) Time.Second
            (Server.tie env) with
    | Server.CaseDone => Server.kills s
    | Server.CaseTimer => S (Server.kills s)
    end.
Proof.
  intros Hp. unfold Server.closeSession. cbn [Server.with_ptmx Server.process_set].
  rewrite Hp.
  destruct (Server.select_done_or_timer _ _ _).
  - unfold Server.log, Server.kills. cbn [Server.process_calls Server.call Server.with_ptmx].
    rewrite List.filter_app, List.length_app. simpl. lia.
  - unfold Server.log, Server.kills. cbn [Server.process_calls Server.call Server.with_ptmx].
    rewrite !List.filter_app, !List.length_app. simpl. lia.
Qed.

(** C4: in the teardown of a session whose child process was started,
    when the child's exit closes [done] before the timer of one second
    fires, no kill is issued; when the child never exits or exits after the
    timer has fired, exactly one kill is issued; in every case at most
    one. The graceful signal is sent first in all cases. *)
Theorem forced_kill_at_most_once env s :
  Server.process_set s = true ->
  (forall t, Server.done_after env = Some t -> t < Time.Second ->
        Server.kills (Server.closeSession env s) = Server.kills s)
  /\ (Server.done_after env = None
      \/ (exists t, Server.done_after env = Some t /\ Time.Second < t) ->
      Server.kills (Server.closeSession env s) = S (Server.kills s))
  /\ (Server.kills (Server.closeSession env s) <= S (Server.kills s))%nat.
Proof.
  intros Hp. rewrite (kills_closeSession env s Hp).
  unfold Server.select_done_or_timer. repeat split.
  - intros t -> Ht. destruct (Z.ltb_spec t Time.Second); [reflexivity | lia].
  - intros [-> | (t & -> & Ht)]; [reflexivity|].
    destruct (Z.ltb_spec t Time.Second); [lia|].
    destruct (Z.ltb_spec Time.Second t); [reflexivity | lia].
  - destruct (Server.done_after env) as [t|]; [|lia].
    destruct (t <? Time.Second); [lia|].
    destruct (Time.Second <? t); [lia|]. destruct (Server.tie env); lia.
Qed.

(** C4, an instance: a child that exits 20 ms after the signal. *)
Lemma forced_kill_at_most_once_witness :
  (forall t, Server.done_after Spec.quick_exit = Some t -> t < Time.Second ->
        Server.kills (Server.closeSession Spec.quick_exit Spec.example_session)
        = Server.kills Spec.example_session)
  /\ (Server.done_after Spec.quick_exit = None
      \/ (exists t, Server.done_after Spec.quick_exit = Some t /\ Time.Second < t) ->
      Server.kills (Server.closeSession Spec.quick_exit Spec.example_session)
      = S (Server.kills Spec.example_session))
  /\ (Server.kills (Server.closeSession Spec.quick_exit Spec.example_session)
      <= S (Server.kills Spec.example_session))%nat.
Proof.
  apply (forced_kill_at_most_once Spec.quick_exit Spec.example_session).
  reflexivity.
Defined.

Example closeSession_calls :
  Server.process_calls (Server.closeSession Spec.quick_exit Spec.example_session)
  = [Server.SignalSIGTERM]
  /\ Server.process_calls (Server.closeSession Spec.no_exit Spec.example_session)
     = [Server.SignalSIGTERM; Server.Kill].
Proof. split; reflexivity. Qed.

End Teardown.

(** ** The variable [isClosing]: claim C7 *)

Section ClosingFlag.

Lemma error_events_log e s :
  Server.error_events (Server.log e s)
  = (Server.error_events s + if Zerolog.is_error e then 1 else 0)%nat.
Proof.
  unfold Server.error_events, Server.log. cbn [Server.logs].
  rewrite List.filter_app, List.length_app. simpl.
  now destruct (Zerolog.is_error e).
Qed.

Lemma run_steps_closing_logs_nothing ip err s :
  Server.isClosing s = true ->
  Server.logs (Server.run_steps (Server.inbound_error_steps ip err) false s)
  = Server.logs s
  /\ Server.logs (Server.run_steps (Server.outbound_error_steps ip err) false s)
     = Server.logs s.
Proof.
  intros Hc. unfold Server.inbound_error_steps, Server.outbound_error_steps.
  cbn [Server.run_steps Server.exec_step]. rewrite Hc. cbn [negb].
  split.
  - now destruct (Server.inbound_error_event ip err).
  - now destruct (Server.outbound_error_event ip err).
Qed.

Lemma inbound_handler_sets_flag ip err s :
  Server.isClosing (Server.run_steps (Server.inbound_error_steps ip err) false s)
  = true.
Proof.
  unfold Server.inbound_error_steps. cbn [Server.run_steps Server.exec_step].
  destruct (Server.isClosing s) eqn:Hc; cbn [negb];
    destruct (Server.inbound_error_event ip err); cbn; try exact Hc; reflexivity.
Qed.

Lemma outbound_handler_sets_flag ip err s :
  Server.isClosing (Server.run_steps (Server.outbound_error_steps ip err) false s)
  = true.
Proof.
  unfold Server.outbound_error_steps. cbn [Server.run_steps Server.exec_step].
  destruct (negb (Server.isClosing s));
    destruct (Server.outbound_error_event ip err); reflexivity.
Qed.

Lemma error_events_with_isClosing b s :
  Server.error_events (Server.with_isClosing b s) = Server.error_events s.
Proof. reflexivity. Qed.

Lemma handler_logs_at_most_one ip err s :
  (Server.error_events (Server.run_steps (Server.inbound_error_steps ip err) false s)
   <= S (Server.error_events s))%nat
  /\ (Server.error_events (Server.run_steps (Server.outbound_error_steps ip err) false s)
      <= S (Server.error_events s))%nat.
Proof.
  unfold Server.inbound_error_steps, Server.outbound_error_steps.
  cbn [Server.run_steps Server.exec_step]. split.
  - destruct (negb (Server.isClosing s));
      destruct (Server.inbound_error_event ip err) as [e|];
      cbn [Server.run_steps Server.exec_step];
      rewrite ?error_events_with_isClosing, ?error_events_log;
      try destruct (Zerolog.is_error e); lia.
  - destruct (negb (Server.isClosing s));
      destruct (Server.outbound_error_event ip err) as [e|];
      cbn [Server.run_steps Server.exec_step];
      rewrite ?error_events_with_isClosing, ?error_events_log;
      try destruct (Zerolog.is_error e); lia.
Qed.

(** When the handler of one pump has run to its end before the handler of
    the other pump starts, the two of them log at most one error. *)
Lemma serial_handlers_log_once ip e1 e2 s :
  (Server.error_events
     (Server.run_steps (Server.outbound_error_steps ip e2) false
        (Server.run_steps (Server.inbound_error_steps ip e1) false s))
   <= S (Server.error_events s))%nat
  /\ (Server.error_events
        (Server.run_steps (Server.inbound_error_steps ip e1) false
           (Server.run_steps (Server.outbound_error_steps ip e2) false s))
      <= S (Server.error_events s))%nat.
Proof.
  split.
  - unfold Server.error_events at 1.
    rewrite (proj2 (run_steps_closing_logs_nothing ip e2 _
                      (inbound_handler_sets_flag ip e1 s))).
    apply handler_logs_at_most_one.
  - unfold Server.error_events at 1.
    rewrite (proj1 (run_steps_closing_logs_nothing ip e1 _
                      (outbound_handler_sets_flag ip e2 s))).
    apply handler_logs_at_most_one.
Qed.

(** C7 fails on the code: [isClosing] is read and assigned in separate,
    unguarded statements. When the socket breaks for both pumps and the
    inbound pump reads the flag, then the outbound pump reads it, logs and
    sets it, and then the inbound pump logs and sets it, the session has
    logged two errors. *)
Theorem unguarded_flag_logs_twice :
  Server.isClosing Spec.example_session = false
  /\ Server.error_events Spec.example_session = 0%nat
  /\ fst (Server.run_schedule [0; 1; 1; 1; 0; 0]%nat Spec.failing_pumps
            Spec.example_session)
     = [([], true); ([], true)]
  /\ Server.error_events
       (snd (Server.run_schedule [0; 1; 1; 1; 0; 0]%nat Spec.failing_pumps
               Spec.example_session))
     = 2%nat.
Proof. repeat split; vm_compute; reflexivity. Qed.

End ClosingFlag.

(** ** The address of the client: claim C6 *)

Section Address.

Lemma IndexByte_Some_split s c : forall m,
  Strings.IndexByte s c = Some m ->
  exists a b, s = a ++ String c b /\ Strings.IndexByte a c = None.
Proof.
  induction s as [|x s IH]; intros m; simpl; [discriminate|].
  destruct (Ascii.eqb_spec x c) as [->|Hne].
  - intros _. now exists "", s.
  - destruct (Strings.IndexByte s c) as [i|] eqn:E; [|discriminate].
    intros _. destruct (IH i eq_refl) as (a & b & -> & Ha).
    exists (String x a), b. split; [reflexivity|]. simpl.
    destruct (Ascii.eqb_spec x c); [contradiction|]. now rewrite Ha.
Qed.

Lemma genSplit_2_length s c :
  length (Strings.genSplit s c 2)
  = match Strings.IndexByte s c with Some _ => 2%nat | None => 1%nat end.
Proof. simpl. now destruct (Strings.IndexByte s c). Qed.

Lemma SplitN_ws_length r :
  length (Strings.SplitN ("ws://" ++ r) "/" 4)
  = match Strings.IndexByte r "/" with Some _ => 4%nat | None => 3%nat end.
Proof.
  unfold Strings.SplitN.
  change (Strings.genSplit ("ws://" ++ r) "/" 4)
    with ("ws:" :: Strings.genSplit (Strings.slice_from ("ws:/" ++ String "/" r) 4) "/" 3).
  pose proof (slice_from_append "ws:/" (String "/" r)) as H1.
  change (String.length "ws:/") with 4%nat in H1. rewrite H1.
  change (Strings.genSplit (String "/" r) "/" 3)
    with ("" :: Strings.genSplit (Strings.slice_from ("/" ++ r) 1) "/" 2).
  pose proof (slice_from_append "/" r) as H2.
  change (String.length "/") with 1%nat in H2. rewrite H2.
  cbn [length]. rewrite genSplit_2_length.
  now destruct (Strings.IndexByte r "/").
Qed.

Lemma SplitN_wss_length r :
  length (Strings.SplitN ("wss://" ++ r) "/" 4)
  = match Strings.IndexByte r "/" with Some _ => 4%nat | None => 3%nat end.
Proof.
  unfold Strings.SplitN.
  change (Strings.genSplit ("wss://" ++ r) "/" 4)
    with ("wss:" :: Strings.genSplit (Strings.slice_from ("wss:/" ++ String "/" r) 5) "/" 3).
  pose proof (slice_from_append "wss:/" (String "/" r)) as H1.
  change (String.length "wss:/") with 5%nat in H1. rewrite H1.
  change (Strings.genSplit (String "/" r) "/" 3)
    with ("" :: Strings.genSplit (Strings.slice_from ("/" ++ r) 1) "/" 2).
  pose proof (slice_from_append "/" r) as H2.
  change (String.length "/") with 1%nat in H2. rewrite H2.
  cbn [length]. rewrite genSplit_2_length.
  now destruct (Strings.IndexByte r "/").
Qed.

Lemma has_path_ws_iff r :
  Spec.has_path ("ws://" ++ r) <-> Strings.IndexByte r "/" <> None.
Proof.
  split.
  - intros H. inversion H as [host path Hh Heq | host path Hh Heq].
    rewrite (IndexByte_append_None host (String "/" path) "/" Hh). discriminate.
  - intros H. destruct (Strings.IndexByte r "/") as [m|] eqn:E; [|congruence].
    destruct (IndexByte_Some_split r "/" m E) as (a & b & -> & Ha).
    now apply (Spec.has_path_ws a b).
Qed.

Lemma has_path_wss_iff r :
  Spec.has_path ("wss://" ++ r) <-> Strings.IndexByte r "/" <> None.
Proof.
  split.
  - intros H. inversion H as [host path Hh Heq | host path Hh Heq].
    rewrite (IndexByte_append_None host (String "/" path) "/" Hh). discriminate.
  - intros H. destruct (Strings.IndexByte r "/") as [m|] eqn:E; [|congruence].
    destruct (IndexByte_Some_split r "/" m E) as (a & b & -> & Ha).
    now apply (Spec.has_path_wss a b).
Qed.

(** The last step of [NewClient] on a socket-scheme address. *)
Lemma append_path_ws n r :
  n = "ws://" ++ r \/ n = "wss://" ++ r ->
  (Spec.has_path n ->
   (if (length (Strings.SplitN n "/" 4) =? 3)%nat then n ++ "/terminal" else n) = n)
  /\ (~ Spec.has_path n ->
      (if (length (Strings.SplitN n "/" 4) =? 3)%nat then n ++ "/terminal" else n)
      = n ++ "/terminal").
Proof.
  intros [-> | ->].
  - rewrite SplitN_ws_length, has_path_ws_iff.
    destruct (Strings.IndexByte r "/"); split; intros H; try reflexivity;
      exfalso; apply H; congruence.
  - rewrite SplitN_wss_length, has_path_wss_iff.
    destruct (Strings.IndexByte r "/"); split; intros H; try reflexivity;
      exfalso; apply H; congruence.
Qed.

(** The scheme rewriting of [NewClient], as a function. *)
Lemma scheme_rewriting url :
  exists n r,
    (n = "ws://" ++ r \/ n = "wss://" ++ r)
    /\ Spec.scheme_normalized url n
    /\ (if Strings.HasPrefix url "http://" then
          "ws://" ++ Strings.TrimPrefix url "http://"
        else if Strings.HasPrefix url "https://" then
          "wss://" ++ Strings.TrimPrefix url "https://"
        else if negb (Strings.HasPrefix url "ws://")
                && negb (Strings.HasPrefix url "wss://") then
          "ws://" ++ url
        else url) = n.
Proof.
  destruct (Strings.HasPrefix url "http://") eqn:E1.
  { pose proof (HasPrefix_inv _ _ E1) as H. set (r := Strings.slice_from _ _) in H.
    exists ("ws://" ++ r), r. split; [now left|]. split.
    - now apply Spec.norm_http.
    - rewrite H at 1. now rewrite TrimPrefix_append. }
  destruct (Strings.HasPrefix url "https://") eqn:E2.
  { pose proof (HasPrefix_inv _ _ E2) as H. set (r := Strings.slice_from _ _) in H.
    exists ("wss://" ++ r), r. split; [now right|]. split.
    - now apply Spec.norm_https.
    - rewrite H at 1. now rewrite TrimPrefix_append. }
  destruct (Strings.HasPrefix url "ws://") eqn:E3.
  { pose proof (HasPrefix_inv _ _ E3) as H. set (r := Strings.slice_from _ _) in H.
    exists url, r. split; [now left|]. split; [|reflexivity].
    now apply (Spec.norm_ws url r). }
  destruct (Strings.HasPrefix url "wss://") eqn:E4.
  { pose proof (HasPrefix_inv _ _ E4) as H. set (r := Strings.slice_from _ _) in H.
    exists url, r. split; [now right|]. split; [|reflexivity].
    now apply (Spec.norm_wss url r). }
  exists ("ws://" ++ url), url. split; [now left|]. split; [|reflexivity].
  now apply Spec.norm_bare.
Qed.









(** The addresses left out of C6 as amended: the test of [NewClient] counts
    the [/] of the whole address, so a [/] in a query stands for a path. *)
Example NewClient_query_sample :
  Spec.path_component "ws://example.com?next=/home" = false
  /\ Spec.slash_after_host "ws://example.com?next=/home" = true
  /\ Client.URL (Client.NewClient "example.com?next=/home")
     = "ws://example.com?next=/home"
  /\ Client.URL (Client.NewClient "example.com?next=home")
     = "ws://example.com?next=home/terminal".
Proof. repeat split; reflexivity. Qed.

Example NewClient_samples :
  Client.URL (Client.NewClient "http://a.example") = "ws://a.example/terminal"
  /\ Client.URL (Client.NewClient "https://a.example/x") = "wss://a.example/x"
  /\ Client.URL (Client.NewClient "ws://h:80") = "ws://h:80/terminal"
  /\ Client.URL (Client.NewClient "wss://h/") = "wss://h/"
  /\ Client.URL (Client.NewClient "h") = "ws://h/terminal".
Proof. repeat split; reflexivity. Qed.

End Address.

(** ** Rounding to [float64] *)

Section FloatFacts.
Local Open Scope Q_scope.

(** The nearest integer is at most one half away. *)
Lemma rne_bounds x :
  inject_Z (Float64.rne x) - x <= 1 # 2 /\ x - inject_Z (Float64.rne x) <= 1 # 2.
Proof.
  unfold Float64.rne.
  pose proof (Qfloor_le x) as Hlo. pose proof (Qlt_floor x) as Hhi.
  rewrite inject_Z_plus in Hhi. change (inject_Z 1) with 1 in Hhi.
  destruct (Qcompare (x - inject_Z (Qfloor x)) (1 # 2)) eqn:E.
  - apply Qeq_alt in E.
    destruct (Z.even (Qfloor x)); rewrite ?inject_Z_plus;
      change (inject_Z 1) with 1; split; lra.
  - apply Qlt_alt in E. split; lra.
  - apply Qgt_alt in E. rewrite inject_Z_plus. change (inject_Z 1) with 1.
    split; lra.
Qed.

Lemma rne_inject x z : x == inject_Z z -> Float64.rne x = z.
Proof.
  intros H. unfold Float64.rne.
  assert (Qfloor x = z) as -> by (rewrite H; apply Qfloor_Z).
  destruct (Qcompare (x - inject_Z z) (1 # 2)) eqn:E; [|reflexivity|].
  - apply Qeq_alt in E. lra.
  - apply Qgt_alt in E. lra.
Qed.

Lemma pow2_pos e : 0 < 2 ^ e.
Proof. apply Qpower_0_lt. reflexivity. Qed.

Lemma pow2_mono a b : (a <= b)%Z -> 2 ^ a <= 2 ^ b.
Proof. intros H. apply Qpower_le_compat_l; [exact H | discriminate]. Qed.

Lemma pow2_inject n : (0 <= n)%Z -> inject_Z (2 ^ n) == 2 ^ n.
Proof. intros H. now rewrite Zpower_Qpower. Qed.

Lemma ilog2_lower x : 0 < x -> 2 ^ Float64.ilog2 x <= x.
Proof.
  intros Hx. unfold Float64.ilog2.
  destruct (Qle_bool _ x) eqn:E; [now apply Qle_bool_iff in E|].
  destruct x as [p q]. cbn [Qnum Qden].
  assert (0 < p)%Z as Hp by (unfold Qlt in Hx; simpl in Hx; lia).
  pose proof (Z.log2_spec p Hp) as [Hp1 _].
  pose proof (Z.log2_spec (Zpos q) ltac:(lia)) as [_ Hq2].
  pose proof (Z.log2_nonneg p) as Ha. pose proof (Z.log2_nonneg (Zpos q)) as Hb.
  set (a := Z.log2 p) in *. set (b := Z.log2 (Zpos q)) in *.
  rewrite (Qmake_Qdiv p q). apply Qle_shift_div_l; [reflexivity|].
  apply Qle_trans with (2 ^ (a - b - 1) * inject_Z (2 ^ Z.succ b)).
  - apply Qmult_le_l; [apply pow2_pos|]. rewrite <- Zle_Qle. lia.
  - rewrite pow2_inject by lia. rewrite <- Qpower_plus by discriminate.
    replace (a - b - 1 + Z.succ b)%Z with a by lia.
    rewrite <- pow2_inject by lia. rewrite <- Zle_Qle. lia.
Qed.

Lemma ilog2_lt x k : 0 < x -> x < 2 ^ k -> (Float64.ilog2 x < k)%Z.
Proof.
  intros Hx Hk. destruct (Z.lt_ge_cases (Float64.ilog2 x) k) as [?|Hge]; [assumption|].
  pose proof (ilog2_lower x Hx). pose proof (pow2_mono _ _ Hge). lra.
Qed.

Lemma Qabs_pos_eq x : 0 < x -> Qabs x = x.
Proof.
  destruct x as [p q]. intros Hx. unfold Qabs.
  rewrite Z.abs_eq; [reflexivity|]. unfold Qlt in Hx. simpl in Hx. lia.
Qed.

Lemma fexp_le x k :
  0 < x -> x < 2 ^ k -> (-1021 <= k)%Z -> (Float64.fexp x <= k - 53)%Z.
Proof.
  intros Hx Hk Hmin. unfold Float64.fexp. rewrite (Qabs_pos_eq x Hx).
  pose proof (ilog2_lt x k Hx Hk). lia.
Qed.

Lemma pow2_half e : (1 # 2) * 2 ^ e == 2 ^ (e - 1).
Proof.
  replace e with (e - 1 + 1)%Z at 1 by lia.
  rewrite Qpower_plus by discriminate. change (2 ^ 1) with 2. field.
Qed.

Lemma round_nonzero x : 0 < x ->
  Float64.round x
  = inject_Z (Float64.rne (x / 2 ^ Float64.fexp x)) * 2 ^ Float64.fexp x.
Proof.
  intros Hx. unfold Float64.round.
  destruct (Qeq_bool x 0) eqn:E; [|reflexivity].
  apply Qeq_bool_eq in E. lra.
Qed.

(** A positive number below [2^k] is rounded with an error of at most half
    a unit in the last place, [2^(k-54)]. *)
Lemma round_error x k :
  0 < x -> x < 2 ^ k -> (-1021 <= k)%Z ->
  Float64.round x - x <= 2 ^ (k - 54) /\ x - Float64.round x <= 2 ^ (k - 54).
Proof.
  intros Hx Hk Hmin. rewrite (round_nonzero x Hx).
  pose proof (fexp_le x k Hx Hk Hmin) as He.
  set (e := Float64.fexp x) in *.
  pose proof (pow2_pos e) as HP.
  pose proof (rne_bounds (x / 2 ^ e)) as [H1 H2].
  set (R := inject_Z (Float64.rne (x / 2 ^ e))) in *.
  assert ((1 # 2) * 2 ^ e <= 2 ^ (k - 54)) as HB
    by (rewrite pow2_half; apply pow2_mono; lia).
  assert (x / 2 ^ e * 2 ^ e == x) as Hy by (field; lra).
  apply (Qmult_le_compat_r _ _ (2 ^ e)) in H1; [|lra].
  apply (Qmult_le_compat_r _ _ (2 ^ e)) in H2; [|lra].
  set (P := 2 ^ e) in *. set (y := x / P) in *.
  assert ((R - y) * P == R * P - y * P) as E1 by ring.
  assert ((y - R) * P == y * P - R * P) as E2 by ring.
  rewrite E1 in H1. rewrite E2 in H2. rewrite Hy in H1, H2. split; lra.
Qed.

(** The integers below [2^53] are [float64] values: rounding keeps
    them. *)
Lemma round_exact x z :
  x == inject_Z z -> (0 <= z < 2 ^ 53)%Z -> Float64.round x == inject_Z z.
Proof.
  intros Hxz Hz. unfold Float64.round.
  destruct (Qeq_bool x 0) eqn:E.
  { apply Qeq_bool_eq in E. lra. }
  apply Qeq_bool_neq in E.
  assert (0 < z)%Z as Hpos.
  { destruct (Z.eq_dec z 0%Z) as [->|]; [|lia]. exfalso. apply E. exact Hxz. }
  assert (0 < x) as Hx by (rewrite Hxz; change 0 with (inject_Z 0); rewrite <- Zlt_Qlt; lia).
  assert (x < 2 ^ 53) as Hlt.
  { rewrite Hxz. rewrite <- (pow2_inject 53) by lia. rewrite <- Zlt_Qlt. lia. }
  pose proof (fexp_le x 53 Hx Hlt ltac:(lia)) as He.
  set (e := Float64.fexp x) in *.
  set (m := (- e)%Z).
  assert (2 ^ e * 2 ^ m == 1) as Hem.
  { rewrite <- Qpower_plus by discriminate. replace (e + m)%Z with 0%Z by lia.
    reflexivity. }
  pose proof (pow2_pos e) as HP.
  assert (x / 2 ^ e == inject_Z (z * 2 ^ m)) as Hy.
  { rewrite inject_Z_mult, pow2_inject by lia.
    apply (Qmult_inj_r _ _ (2 ^ e)); [lra|].
    assert (x / 2 ^ e * 2 ^ e == x) as -> by (field; lra).
    rewrite <- Qmult_assoc, (Qmult_comm (2 ^ m)), Hem. rewrite Hxz. ring. }
  rewrite (rne_inject _ _ Hy).
  rewrite inject_Z_mult, pow2_inject by lia.
  rewrite <- Qmult_assoc, (Qmult_comm (2 ^ m)), Hem. ring.
Qed.

Lemma to_int_comp x y : x == y -> Float64.to_int x = Float64.to_int y.
Proof.
  intros H. unfold Float64.to_int.
  assert (Qle_bool 0 x = Qle_bool 0 y) as ->.
  { destruct (Qle_bool 0 y) eqn:E.
    - apply Qle_bool_iff. apply Qle_bool_iff in E. lra.
    - destruct (Qle_bool 0 x) eqn:E'; [|reflexivity].
      apply Qle_bool_iff in E'. assert (0 <= y) as Hy by lra.
      apply Qle_bool_iff in Hy. congruence. }
  destruct (Qle_bool 0 y).
  - now apply Qfloor_comp.
  - unfold Qceiling. f_equal. apply Qfloor_comp. now rewrite H.
Qed.

Lemma to_int_between x q :
  (0 <= q)%Z -> inject_Z q <= x -> x < inject_Z q + 1 -> Float64.to_int x = q.
Proof.
  intros Hq Hlo Hhi. unfold Float64.to_int.
  assert (0 <= x) as H0.
  { apply Qle_trans with (inject_Z q); [|exact Hlo].
    change 0 with (inject_Z 0). rewrite <- Zle_Qle. lia. }
  apply Qle_bool_iff in H0. rewrite H0.
  apply Z.le_antisymm.
  - apply Z.lt_succ_r. rewrite Zlt_Qlt. unfold Z.succ. rewrite inject_Z_plus.
    change (inject_Z 1) with 1. pose proof (Qfloor_le x). lra.
  - rewrite <- (Qfloor_Z q). now apply Qfloor_resp_le.
Qed.

(** The integer part of [float64(d / u) + float64(d % u) / u] for a
    duration [d] of [s] whole seconds and a unit [u] of [n] seconds is the
    integer quotient [s / n]: the fraction is zero or lies between
    [1/3600] and [3599/3600], and the two roundings move the sum by less
    than [2^-19]. *)
Lemma unit_trunc (u n s : Z) :
  u = (n * 10 ^ 9)%Z -> (1 <= n <= 3600)%Z -> (0 <= s < 2 ^ 34)%Z ->
  Float64.to_int
    (Float64.add (Float64.of_int (Z.quot (s * 10 ^ 9) u))
       (Float64.div (Float64.of_int (Z.rem (s * 10 ^ 9) u)) (inject_Z u)))
  = (s / n)%Z.
Proof.
  intros -> Hn Hs.
  rewrite Z.quot_div_nonneg, Z.rem_mod_nonneg by lia.
  rewrite Z.div_mul_cancel_r, Z.mul_mod_distr_r by lia.
  pose proof (Z.mod_pos_bound s n ltac:(lia)) as Hj.
  assert (0 <= s / n < 2 ^ 34)%Z as Hq.
  { split; [apply Z.div_pos; lia|]. apply Z.div_lt_upper_bound; nia. }
  set (q := (s / n)%Z) in *. set (j := (s mod n)%Z) in *.
  unfold Float64.add, Float64.div, Float64.of_int.
  assert (0 <= j * 10 ^ 9 < 2 ^ 53)%Z as Hjn by lia.
  assert (0 <= q < 2 ^ 53)%Z as Hq53 by lia.
  pose proof (round_exact (inject_Z q) q (Qeq_refl _) Hq53) as HA.
  pose proof (round_exact (inject_Z (j * 10 ^ 9)) (j * 10 ^ 9) (Qeq_refl _) Hjn)
    as HN.
  set (A := Float64.round (inject_Z q)) in *.
  set (N := Float64.round (inject_Z (j * 10 ^ 9))) in *.
  assert (0 < inject_Z n) as Hn0
    by (change 0 with (inject_Z 0); rewrite <- Zlt_Qlt; lia).
  assert (N / inject_Z (n * 10 ^ 9) == inject_Z j / inject_Z n) as Hf.
  { rewrite HN, !inject_Z_mult. field.
    split; [lra | intros Hc; vm_compute in Hc; discriminate]. }
  assert (0 <= inject_Z q) as Hq0
    by (change 0 with (inject_Z 0); rewrite <- Zle_Qle; lia).
  assert (inject_Z q + 1 <= 2 ^ 34) as Hq1.
  { change 1 with (inject_Z 1). rewrite <- inject_Z_plus.
    rewrite <- (pow2_inject 34) by lia. rewrite <- Zle_Qle. lia. }
  destruct (Z.eq_dec j 0%Z) as [Hj0|Hj0].
  - assert (N / inject_Z (n * 10 ^ 9) == inject_Z 0) as Hz.
    { rewrite Hf, Hj0. unfold Qdiv. ring. }
    pose proof (round_exact _ 0 Hz ltac:(lia)) as HB.
    change (inject_Z 0) with 0 in HB.
    assert (A + Float64.round (N / inject_Z (n * 10 ^ 9)) == inject_Z q) as HS
      by (rewrite HA, HB; ring).
    pose proof (round_exact _ q HS ltac:(lia)) as HR.
    rewrite (to_int_comp _ _ HR). apply to_int_between; [lia | lra | lra].
  - assert (1 # 3600 <= inject_Z j / inject_Z n) as Hlo.
    { apply Qle_shift_div_l; [exact Hn0|].
      assert (inject_Z n <= 3600 * inject_Z j).
      { change 3600 with (inject_Z 3600). rewrite <- inject_Z_mult, <- Zle_Qle. lia. }
      lra. }
    assert (inject_Z j / inject_Z n <= 3599 # 3600) as Hhi.
    { apply Qle_shift_div_r; [exact Hn0|].
      assert (3600 * inject_Z j <= 3599 * inject_Z n).
      { change 3600 with (inject_Z 3600). change 3599 with (inject_Z 3599).
        rewrite <- !inject_Z_mult, <- Zle_Qle. lia. }
      lra. }
    set (f := N / inject_Z (n * 10 ^ 9)) in *.
    assert (0 < f) as Hfpos by lra.
    assert (f < 2 ^ 0) as Hf1 by (change (2 ^ 0) with 1; lra).
    pose proof (round_error f 0 Hfpos Hf1 ltac:(lia)) as [HB1 HB2].
    assert (2 ^ (0 - 54) == 1 # 18014398509481984) as E54 by reflexivity.
    rewrite E54 in HB1, HB2.
    set (B := Float64.round f) in *.
    assert (0 < A + B) as HSpos by lra.
    assert (A + B < 2 ^ 34) as HS1 by lra.
    pose proof (round_error (A + B) 34 HSpos HS1 ltac:(lia)) as [HR1 HR2].
    assert (2 ^ (34 - 54) == 1 # 1048576) as E20 by reflexivity.
    rewrite E20 in HR1, HR2.
    apply to_int_between; [lia | lra | lra].
Qed.

End FloatFacts.

(** ** The elapsed-duration string: claim C5 *)

Section ElapsedFacts.
Local Open Scope Z_scope.

Lemma whole_seconds_bound s :
  0 <= s -> s * Time.Second <= Time.maxDuration -> 0 <= s < 2 ^ 34.
Proof.
  unfold Time.maxDuration. change Time.Second with 1000000000. lia.
Qed.

Lemma hours_whole s :
  0 <= s -> s * Time.Second <= Time.maxDuration ->
  Elapsed.hours (s * Time.Second) = s / 3600.
Proof.
  intros H0 Hmax. pose proof (whole_seconds_bound s H0 Hmax) as Hs.
  exact (unit_trunc Time.Hour 3600 s eq_refl ltac:(lia) Hs).
Qed.

Lemma minutes_whole s :
  0 <= s -> s * Time.Second <= Time.maxDuration ->
  Elapsed.minutes (s * Time.Second) = (s / 60) mod 60.
Proof.
  intros H0 Hmax. pose proof (whole_seconds_bound s H0 Hmax) as Hs.
  unfold Elapsed.minutes.
  rewrite <- (Z.rem_mod_nonneg (s / 60) 60) by (try apply Z.div_pos; lia).
  f_equal. exact (unit_trunc Time.Minute 60 s eq_refl ltac:(lia) Hs).
Qed.

Lemma seconds_whole s :
  0 <= s -> s * Time.Second <= Time.maxDuration ->
  Elapsed.seconds (s * Time.Second) = s mod 60.
Proof.
  intros H0 Hmax. pose proof (whole_seconds_bound s H0 Hmax) as Hs.
  unfold Elapsed.seconds.
  rewrite <- (Z.rem_mod_nonneg s 60) by lia.
  f_equal. rewrite <- (Z.div_1_r s) at 2.
  exact (unit_trunc Time.Second 1 s eq_refl ltac:(lia) Hs).
Qed.

(** C5: for every duration of a whole number [s] of seconds, from zero to
    the largest [time.Duration], the string is ["S seconds"] when
    [s < 60], ["M minutes, S seconds"] when [60 <= s < 3600] and
    ["H hours, M minutes, S seconds"] when [s >= 3600], with
    [H = s / 3600], [M = (s / 60) mod 60] and [S = s mod 60]. The
    [float64] results of [Hours], [Minutes] and [Seconds] lose nothing
    here: their integer parts are the integer quotients. *)
Theorem durationStr_breakdown s :
  0 <= s -> s * Time.Second <= Time.maxDuration ->
  Elapsed.durationStr (s * Time.Second) = Spec.breakdown s.
Proof.
  intros H0 Hmax. unfold Elapsed.durationStr, Spec.breakdown.
  rewrite (hours_whole s H0 Hmax), (minutes_whole s H0 Hmax),
    (seconds_whole s H0 Hmax).
  destruct (Z.ltb_spec s 60) as [H60|H60].
  - rewrite (Z.div_small s 3600), (Z.div_small s 60) by lia. reflexivity.
  - destruct (Z.ltb_spec s 3600) as [H3600|H3600].
    + rewrite (Z.div_small s 3600) by lia. cbn [Z.ltb Z.compare].
      assert (0 < s / 60 < 60) as Hm.
      { split; [apply Z.div_str_pos; lia | apply Z.div_lt_upper_bound; lia]. }
      rewrite (Z.mod_small (s / 60) 60) by lia.
      destruct (Z.ltb_spec 0 (s / 60)); [reflexivity | lia].
    + assert (0 < s / 3600) as Hh by (apply Z.div_str_pos; lia).
      destruct (Z.ltb_spec 0 (s / 3600)); [reflexivity | lia].
Qed.

(** C5, the three instances of the specification: 45, 125 and 3725
    seconds. *)
Lemma durationStr_breakdown_witness :
  Elapsed.durationStr (45 * Time.Second) = "45 seconds"%string
  /\ Elapsed.durationStr (125 * Time.Second) = "2 minutes, 5 seconds"%string
  /\ Elapsed.durationStr (3725 * Time.Second)
     = "1 hours, 2 minutes, 5 seconds"%string.
Proof.
  split; [|split].
  - apply (durationStr_breakdown 45); [lia | discriminate].
  - apply (durationStr_breakdown 125); [lia | discriminate].
  - apply (durationStr_breakdown 3725); [lia | discriminate].
Defined.
End ElapsedFacts.

(** * Further properties of the server *)

Section InboundInput.
Local Open Scope Z_scope.

Lemma resize_guard_like p :
  (7 <? String.length p)%nat && String.eqb (Strings.slice p 0 7) "resize:"
  = Notions.resize_like p.
Proof.
  unfold Notions.resize_like.
  destruct (Strings.HasPrefix p "resize:") eqn:E.
  - pose proof (HasPrefix_inv _ _ E) as H.
    set (r := Strings.slice_from p _) in H. rewrite H.
    destruct r as [|c r].
    + reflexivity.
    + rewrite (resize_guard (String c r)) by discriminate.
      symmetry. apply andb_true_iff. split; [reflexivity|].
      apply negb_true_iff. apply String.eqb_neq. discriminate.
  - unfold Strings.HasPrefix in E. change (String.length "resize:") with 7%nat in E.
    destruct (String.eqb (Strings.slice p 0 7) "resize:"); [|now rewrite andb_false_r].
    rewrite andb_true_r in *. apply Nat.leb_gt in E.
    apply Nat.ltb_ge. lia.
Qed.

Lemma resize_like_inv p :
  Notions.resize_like p = true -> exists rest, rest <> "" /\ p = "resize:" ++ rest.
Proof.
  unfold Notions.resize_like. intros H. apply andb_true_iff in H as [E N].
  pose proof (HasPrefix_inv _ _ E) as H. set (r := Strings.slice_from p _) in H.
  exists r. split; [|exact H]. intros Hr. rewrite Hr in H. rewrite H in N.
  discriminate N.
Qed.

(** A resize request, valid or not, leaves the bytes written to the PTY and
    its open or closed state as they are. *)
Lemma handleText_resize_like p s :
  Notions.resize_like p = true ->
  Pty.written (Server.ptmx (Server.handleText p s)) = Pty.written (Server.ptmx s)
  /\ Pty.closed (Server.ptmx (Server.handleText p s)) = Pty.closed (Server.ptmx s).
Proof.
  intros H. destruct (resize_like_inv p H) as (rest & Hne & ->).
  rewrite (handleText_resize rest s Hne).
  destruct (Spec.resize_fields rest) as [[cols rows]|]; [|now split].
  destruct ((0 <? cols) && (0 <? rows)); [|now split].
  unfold Pty.Setsize. destruct (Pty.closed (Server.ptmx s)) eqn:E; cbn; now rewrite ?E.
Qed.

Lemma handleText_plain p s :
  Pty.closed (Server.ptmx s) = false ->
  Notions.resize_like p = false ->
  Server.handleText p s = Spec.typed p s.
Proof.
  intros Hopen Hp. unfold Server.handleText.
  rewrite resize_guard_like, Hp. unfold Pty.Write. now rewrite Hopen.
Qed.

(** X1. A text payload that is not a resize request (it does not start
    with [resize:], or is just [resize:]) is written to an open PTY byte for
    byte; the window size, the log and the rest of the session are
    untouched. *)
Theorem plain_input_forwarded p s :
  Pty.closed (Server.ptmx s) = false ->
  Notions.resize_like p = false ->
  Server.handleMessage Websocket.TextMessage p s = Spec.typed p s.
Proof.
  intros Hopen Hp. rewrite handleMessage_text. now apply handleText_plain.
Qed.

(** X1, an instance: a command line typed by the user. *)
Lemma plain_input_forwarded_witness :
  Server.handleMessage Websocket.TextMessage "echo resize:1:2"
    Spec.example_session
  = Spec.typed "echo resize:1:2" Spec.example_session.
Proof.
  apply (plain_input_forwarded "echo resize:1:2" Spec.example_session);
    reflexivity.
Defined.

Lemma handleMessage_written messageType p s :
  Pty.closed (Server.ptmx s) = false ->
  Pty.closed (Server.ptmx (Server.handleMessage messageType p s)) = false
  /\ Pty.written (Server.ptmx (Server.handleMessage messageType p s))
     = (Pty.written (Server.ptmx s)
        ++ if (messageType =? Websocket.TextMessage) && negb (Notions.resize_like p)
           then [p] else [])%list.
Proof.
  intros Hopen. unfold Server.handleMessage.
  destruct (messageType =? Websocket.TextMessage); cbn [andb].
  - destruct (Notions.resize_like p) eqn:E; cbn [negb].
    + destruct (handleText_resize_like p s E) as [-> ->].
      now rewrite app_nil_r.
    + rewrite (handleText_plain p s Hopen E). now split.
  - now rewrite app_nil_r.
Qed.

Lemma inboundPump_written reads : forall s,
  Pty.closed (Server.ptmx s) = false ->
  Notions.no_error reads = true ->
  Pty.written (Server.ptmx (Server.inboundPump reads s))
  = (Pty.written (Server.ptmx s)
     ++ List.filter (fun p => negb (Notions.resize_like p))
          (Notions.text_payloads reads))%list
  /\ Pty.closed (Server.ptmx (Server.inboundPump reads s)) = false.
Proof.
  induction reads as [|[messageType p|err] reads IH]; intros s Hopen Hok.
  - cbn. now rewrite app_nil_r.
  - rewrite inboundPump_message.
    destruct (handleMessage_written messageType p s Hopen) as [Hc Hw].
    destruct (IH _ Hc Hok) as [IHw IHc]. split; [|exact IHc].
    rewrite IHw, Hw. cbn [Notions.text_payloads].
    destruct (messageType =? Websocket.TextMessage); cbn [andb].
    + cbn [List.filter]. destruct (Notions.resize_like p); cbn [negb].
      * now rewrite app_nil_r.
      * now rewrite <- app_assoc.
    + now rewrite app_nil_r.
  - discriminate Hok.
Qed.


(** X2. While no read fails, the inbound pump writes to an open PTY
    exactly the payloads of the text messages that are not resize requests,
    in the order in which they arrive; messages of other types and resize
    requests add nothing, and the PTY stays open. *)
Theorem inbound_input_in_order reads : forall s,
  Pty.closed (Server.ptmx s) = false ->
  Notions.no_error reads = true ->
  Pty.written (Server.ptmx (Server.inboundPump reads s))
  = (Pty.written (Server.ptmx s)
     ++ List.filter (fun p => negb (Notions.resize_like p))
          (Notions.text_payloads reads))%list
  /\ Pty.closed (Server.ptmx (Server.inboundPump reads s)) = false.
Proof. exact (inboundPump_written reads). Qed.

(** X2, an instance: input, a resize, a binary message, input. *)
Lemma inbound_input_in_order_witness :
  Pty.written
    (Server.ptmx
       (Server.inboundPump
          [Websocket.Message Websocket.TextMessage "ls";
           Websocket.Message Websocket.TextMessage "resize:100:30";
           Websocket.Message Websocket.BinaryMessage "x";
           Websocket.Message Websocket.TextMessage " -l"]
          Spec.example_session))
  = (Pty.written (Server.ptmx Spec.example_session)
     ++ List.filter (fun p => negb (Notions.resize_like p))
          (Notions.text_payloads
             [Websocket.Message Websocket.TextMessage "ls";
              Websocket.Message Websocket.TextMessage "resize:100:30";
              Websocket.Message Websocket.BinaryMessage "x";
              Websocket.Message Websocket.TextMessage " -l"]))%list
  /\ Pty.closed
       (Server.ptmx
          (Server.inboundPump
             [Websocket.Message Websocket.TextMessage "ls";
              Websocket.Message Websocket.TextMessage "resize:100:30";
              Websocket.Message Websocket.BinaryMessage "x";
              Websocket.Message Websocket.TextMessage " -l"]
             Spec.example_session))
     = false.
Proof.
  apply (inbound_input_in_order
           [Websocket.Message Websocket.TextMessage "ls";
            Websocket.Message Websocket.TextMessage "resize:100:30";
            Websocket.Message Websocket.BinaryMessage "x";
            Websocket.Message Websocket.TextMessage " -l"]
           Spec.example_session); reflexivity.
Defined.

(** X3. Once the PTY is closed (teardown has begun while the inbound pump
    still reads), no message changes the PTY or the closing flag.  A text
    message that asks for a resize with two positive fields logs exactly one
    error event "Error resizing pty", with the error that [pty.Setsize]
    returns, and changes nothing else; every other message (another type,
    input for the PTY, a resize request that is not well formed) leaves the
    session as it is. *)
Theorem closed_pty_untouched messageType p s :
  Pty.closed (Server.ptmx s) = true ->
  Server.ptmx (Server.handleMessage messageType p s) = Server.ptmx s
  /\ Server.isClosing (Server.handleMessage messageType p s) = Server.isClosing s
  /\ (forall rest cols rows,
         messageType = Websocket.TextMessage ->
         p = "resize:" ++ rest ->
         Spec.resize_fields rest = Some (cols, rows) -> 0 < cols -> 0 < rows ->
         exists err,
           snd (Pty.Setsize (Server.ptmx s)
                  {| Pty.Rows := rows mod 65536; Pty.Cols := cols mod 65536;
                     Pty.X := 0; Pty.Y := 0 |}) = Some err
           /\ Server.handleMessage messageType p s
              = Server.log {| Zerolog.level := Zerolog.ErrorLevel;
                              Zerolog.msg := "Error resizing pty";
                              Zerolog.fields := [("error", err)] |} s
           /\ Server.logs (Server.handleMessage messageType p s)
              = (Server.logs s
                 ++ [{| Zerolog.level := Zerolog.ErrorLevel;
                        Zerolog.msg := "Error resizing pty";
                        Zerolog.fields := [("error", err)] |}])%list)
  /\ (messageType <> Websocket.TextMessage
      \/ Notions.resize_like p = false
      \/ (exists rest, p = "resize:" ++ rest /\ Spec.malformed rest) ->
      Server.handleMessage messageType p s = s).
Proof.
  intros Hc.
  assert (Server.with_ptmx (Server.ptmx s) s = s) as Hw by now destruct s.
  assert (Notions.resize_like p = false -> Server.handleText p s = s) as Hplain.
  { intros E. unfold Server.handleText. rewrite resize_guard_like, E.
    unfold Pty.Write. rewrite Hc. cbn [fst]. exact Hw. }
  assert (forall rest cols rows,
             Spec.resize_fields rest = Some (cols, rows) -> 0 < cols -> 0 < rows ->
             Server.handleText ("resize:" ++ rest) s
             = Server.log {| Zerolog.level := Zerolog.ErrorLevel;
                             Zerolog.msg := "Error resizing pty";
                             Zerolog.fields :=
                               [("error",
                                 match snd (Pty.Setsize (Server.ptmx s)
                                              {| Pty.Rows := rows mod 65536;
                                                 Pty.Cols := cols mod 65536;
                                                 Pty.X := 0; Pty.Y := 0 |}) with
                                 | Some err => err
                                 | None => ""
                                 end)] |} s) as Hres.
  { intros rest cols rows Hf Hcols Hrows.
    assert (rest <> "") as Hne by (intros ->; discriminate Hf).
    rewrite (handleText_resize rest s Hne), Hf.
    destruct (Z.ltb_spec 0 cols); [|lia]. destruct (Z.ltb_spec 0 rows); [|lia].
    cbn [andb]. unfold Pty.Setsize. rewrite Hc. cbn [snd]. now rewrite Hw. }
  assert (Server.handleText p s = s
          \/ exists e, Server.handleText p s = Server.log e s) as Hcases.
  { destruct (Notions.resize_like p) eqn:E; [|left; now apply Hplain].
    destruct (resize_like_inv p E) as (rest & Hne & ->).
    rewrite (handleText_resize rest s Hne).
    destruct (Spec.resize_fields rest) as [[cols rows]|]; [|now left].
    destruct ((0 <? cols) && (0 <? rows)); [|now left].
    unfold Pty.Setsize. rewrite Hc. rewrite Hw. right. now eexists. }
  split; [|split; [|split]].
  - unfold Server.handleMessage.
    destruct (messageType =? Websocket.TextMessage); [|reflexivity].
    destruct Hcases as [-> | (e & ->)]; reflexivity.
  - unfold Server.handleMessage.
    destruct (messageType =? Websocket.TextMessage); [|reflexivity].
    destruct Hcases as [-> | (e & ->)]; reflexivity.
  - intros rest cols rows -> -> Hf Hcols Hrows.
    rewrite handleMessage_text, (Hres rest cols rows Hf Hcols Hrows).
    unfold Pty.Setsize. rewrite Hc. cbn [snd].
    eexists. split; [reflexivity|]. split; reflexivity.
  - intros [Hm | [Hl | (rest & -> & Hm)]].
    + unfold Server.handleMessage.
      destruct (Z.eqb_spec messageType Websocket.TextMessage); [contradiction|].
      reflexivity.
    + unfold Server.handleMessage.
      destruct (messageType =? Websocket.TextMessage); [|reflexivity].
      exact (Hplain Hl).
    + unfold Server.handleMessage.
      destruct (messageType =? Websocket.TextMessage); [|reflexivity].
      destruct (String.eqb_spec rest "") as [->|Hne].
      * apply Hplain. reflexivity.
      * now apply handleText_malformed.
Qed.

(** X3, an instance: a valid resize after the PTY was closed. *)
Lemma closed_pty_untouched_witness :
  Pty.closed
    (Server.ptmx (Server.closeSession Spec.quick_exit Spec.example_session))
  = true
  /\ exists err,
       Server.logs
         (Server.handleMessage Websocket.TextMessage "resize:120:40"
            (Server.closeSession Spec.quick_exit Spec.example_session))
       = (Server.logs (Server.closeSession Spec.quick_exit Spec.example_session)
          ++ [{| Zerolog.level := Zerolog.ErrorLevel;
                 Zerolog.msg := "Error resizing pty";
                 Zerolog.fields := [("error", err)] |}])%list.
Proof.
  split; [reflexivity|].
  destruct (closed_pty_untouched Websocket.TextMessage "resize:120:40"
              (Server.closeSession Spec.quick_exit Spec.example_session)
              eq_refl) as (_ & _ & H & _).
  destruct (H "120:40" 120 40 eq_refl eq_refl eq_refl eq_refl eq_refl)
    as (err & _ & _ & E).
  exists err. exact E.
Defined.

End InboundInput.

Section InboundErrors.
Local Open Scope Z_scope.

Lemma inboundPump_app pre : forall reads s,
  Notions.no_error pre = true ->
  Server.inboundPump (pre ++ reads) s
  = Server.inboundPump reads (Server.inboundPump pre s).
Proof.
  induction pre as [|[messageType p|err] pre IH]; intros reads s Hok.
  - reflexivity.
  - cbn [app]. rewrite !inboundPump_message. now apply IH.
  - discriminate Hok.
Qed.

Lemma inbound_handler_ptmx ip err s :
  Server.ptmx (Server.run_steps (Server.inbound_error_steps ip err) false s)
  = Server.ptmx s.
Proof.
  unfold Server.inbound_error_steps. cbn [Server.run_steps Server.exec_step].
  destruct (negb (Server.isClosing s));
    destruct (Server.inbound_error_event ip err); reflexivity.
Qed.

Lemma inbound_close_error_no_error_event ip err s :
  Websocket.close_code err <> None ->
  Server.error_events (Server.run_steps (Server.inbound_error_steps ip err) false s)
  = Server.error_events s.
Proof.
  intros Hc. unfold Server.inbound_error_steps, Server.inbound_error_event,
    Websocket.IsUnexpectedCloseError.
  destruct (Websocket.close_code err); [|congruence].
  cbn [Server.run_steps Server.exec_step].
  destruct (negb (Server.isClosing s)); cbn [Server.run_steps Server.exec_step];
    rewrite ?error_events_with_isClosing, ?error_events_log; cbn; lia.
Qed.

(** X4. The inbound pump ends at the first read error: whatever the
    connection delivers afterwards is never handled. The handling of the
    error leaves the PTY as it is, sets [isClosing], and logs at most one
    error-level event, and none at all when the error is a close error of
    any code (it is reported at info level). *)
Theorem inbound_stops_at_error pre err post s :
  Notions.no_error pre = true ->
  Server.inboundPump (pre ++ Websocket.ReadError err :: post) s
  = Server.inboundPump (pre ++ [Websocket.ReadError err]) s
  /\ Server.isClosing
       (Server.inboundPump (pre ++ Websocket.ReadError err :: post) s) = true
  /\ Server.ptmx (Server.inboundPump (pre ++ Websocket.ReadError err :: post) s)
     = Server.ptmx (Server.inboundPump pre s)
  /\ (Server.error_events
        (Server.inboundPump (pre ++ Websocket.ReadError err :: post) s)
      <= S (Server.error_events (Server.inboundPump pre s)))%nat
  /\ (Websocket.close_code err <> None ->
      Server.error_events
        (Server.inboundPump (pre ++ Websocket.ReadError err :: post) s)
      = Server.error_events (Server.inboundPump pre s)).
Proof.
  intros Hok. rewrite !(inboundPump_app pre) by exact Hok.
  cbn [Server.inboundPump]. set (s' := Server.inboundPump pre s).
  split; [reflexivity|]. split; [apply inbound_handler_sets_flag|].
  split; [apply inbound_handler_ptmx|].
  split; [apply handler_logs_at_most_one|].
  apply inbound_close_error_no_error_event.
Qed.

(** X4, an instance: input, a normal closure, then input that is lost. *)
Lemma inbound_stops_at_error_witness :
  Server.inboundPump
    ([Websocket.Message Websocket.TextMessage "ls"]
     ++ Websocket.ReadError
          Notions.normal_closure
        :: [Websocket.Message Websocket.TextMessage "rm"])
    Spec.example_session
  = Server.inboundPump
      ([Websocket.Message Websocket.TextMessage "ls"]
       ++ [Websocket.ReadError
             Notions.normal_closure])
      Spec.example_session
  /\ Server.isClosing
       (Server.inboundPump
          ([Websocket.Message Websocket.TextMessage "ls"]
           ++ Websocket.ReadError
                Notions.normal_closure
              :: [Websocket.Message Websocket.TextMessage "rm"])
          Spec.example_session) = true
  /\ Server.ptmx
       (Server.inboundPump
          ([Websocket.Message Websocket.TextMessage "ls"]
           ++ Websocket.ReadError
                Notions.normal_closure
              :: [Websocket.Message Websocket.TextMessage "rm"])
          Spec.example_session)
     = Server.ptmx
         (Server.inboundPump [Websocket.Message Websocket.TextMessage "ls"]
            Spec.example_session)
  /\ (Server.error_events
        (Server.inboundPump
           ([Websocket.Message Websocket.TextMessage "ls"]
            ++ Websocket.ReadError
                 Notions.normal_closure
               :: [Websocket.Message Websocket.TextMessage "rm"])
           Spec.example_session)
      <= S (Server.error_events
              (Server.inboundPump [Websocket.Message Websocket.TextMessage "ls"]
                 Spec.example_session)))%nat
  /\ (Websocket.close_code
        Notions.normal_closure <> None ->
      Server.error_events
        (Server.inboundPump
           ([Websocket.Message Websocket.TextMessage "ls"]
            ++ Websocket.ReadError
                 Notions.normal_closure
               :: [Websocket.Message Websocket.TextMessage "rm"])
           Spec.example_session)
      = Server.error_events
          (Server.inboundPump [Websocket.Message Websocket.TextMessage "ls"]
             Spec.example_session)).
Proof.
  apply (inbound_stops_at_error
           [Websocket.Message Websocket.TextMessage "ls"]
           Notions.normal_closure
           [Websocket.Message Websocket.TextMessage "rm"]
           Spec.example_session).
  reflexivity.
Defined.



End InboundErrors.

Section TeardownEffects.

(** X6. [closeSession], in every case: the PTY ends closed with its size
    and its input untouched; the only event logged is one info-level
    "Session ended" with the client address and the duration string;
    [isClosing] is not changed; with a child process the calls issued are
    SIGTERM alone or SIGTERM followed by one kill, in this order, and
    without one no call is issued. *)
Theorem closeSession_effects env s :
  Pty.closed (Server.ptmx (Server.closeSession env s)) = true
  /\ Pty.size (Server.ptmx (Server.closeSession env s)) = Pty.size (Server.ptmx s)
  /\ Pty.written (Server.ptmx (Server.closeSession env s))
     = Pty.written (Server.ptmx s)
  /\ Server.logs (Server.closeSession env s)
     = (Server.logs s
        ++ [{| Zerolog.level := Zerolog.InfoLevel;
               Zerolog.msg := "Session ended";
               Zerolog.fields :=
                 [("clientIP", Server.clientIP s);
                  ("duration", Elapsed.durationStr (Server.elapsed env))] |}])%list
  /\ Server.isClosing (Server.closeSession env s) = Server.isClosing s
  /\ (Server.process_set s = true ->
      Server.process_calls (Server.closeSession env s)
      = (Server.process_calls s ++ [Server.SignalSIGTERM])%list
      \/ Server.process_calls (Server.closeSession env s)
         = (Server.process_calls s ++ [Server.SignalSIGTERM; Server.Kill])%list)
  /\ (Server.process_set s = false ->
      Server.process_calls (Server.closeSession env s) = Server.process_calls s).
Proof.
  unfold Server.closeSession. cbn [Server.with_ptmx Server.process_set].
  destruct (Server.process_set s) eqn:Hp.
  - destruct (Server.select_done_or_timer _ _ _); cbn;
      repeat split; try discriminate; intros _; [now left | right].
    now rewrite <- app_assoc.
  - cbn. repeat split; try discriminate.
Qed.

End TeardownEffects.

Section OutboundFacts.

Lemma outboundPump_session_ptmx turns : forall st,
  Server.ptmx (Outbound.session (Outbound.outboundPump turns st))
  = Server.ptmx (Outbound.session st).
Proof.
  induction turns as [|[data|data err|eof text] turns IH]; intros st;
    cbn [Outbound.outboundPump Outbound.session]; try reflexivity.
  - now rewrite IH.
  - unfold Server.outbound_error_steps. cbn [Server.run_steps Server.exec_step].
    destruct (negb (Server.isClosing (Outbound.session st)));
      destruct (Server.outbound_error_event _ err); reflexivity.
  - unfold Outbound.pty_error_steps. destruct eof; [reflexivity|].
    cbn [Server.run_steps Server.exec_step].
    destruct (negb (Server.isClosing (Outbound.session st)));
      destruct (negb (Strings.Contains text "input/output error")); reflexivity.
Qed.

Lemma outboundPump_error_events turns : forall st,
  (Server.error_events (Outbound.session (Outbound.outboundPump turns st))
   <= S (Server.error_events (Outbound.session st)))%nat.
Proof.
  induction turns as [|[data|data err|eof text] turns IH]; intros st;
    cbn [Outbound.outboundPump Outbound.session]; try lia.
  - exact (IH _).
  - apply handler_logs_at_most_one.
  - unfold Outbound.pty_error_steps. destruct eof; [cbn; lia|].
    cbn [Server.run_steps Server.exec_step].
    destruct (negb (Server.isClosing (Outbound.session st)));
      destruct (negb (Strings.Contains text "input/output error"));
      cbn [Server.run_steps Server.exec_step];
      rewrite ?error_events_log; cbn; lia.
Qed.

(** X7. The outbound pump sends the chunks read from the PTY in their
    order, each as one binary message, up to the first read or write that
    fails, and nothing after it; it never touches the PTY state and logs at
    most one error-level event. *)
Theorem outbound_forwards_in_order turns st :
  Outbound.sent (Outbound.outboundPump turns st)
  = (Outbound.sent st
     ++ map (fun data => (Websocket.BinaryMessage, data)) (Notions.forwarded turns))%list
  /\ Server.ptmx (Outbound.session (Outbound.outboundPump turns st))
     = Server.ptmx (Outbound.session st)
  /\ (Server.error_events (Outbound.session (Outbound.outboundPump turns st))
      <= S (Server.error_events (Outbound.session st)))%nat.
Proof.
  split; [|split; [apply outboundPump_session_ptmx | apply outboundPump_error_events]].
  revert st. induction turns as [|[data|data err|eof text] turns IH]; intros st;
    cbn [Outbound.outboundPump Outbound.sent Notions.forwarded map];
    try now rewrite app_nil_r.
  rewrite IH. cbn [Outbound.sent]. now rewrite <- app_assoc.
Qed.

(** X8. The end of the PTY output is silent: when [ptmx.Read] fails with
    [io.EOF] or with an "input/output error" (the child has exited), or
    when teardown has begun, the outbound pump stops without logging and
    without setting [isClosing]. *)
Theorem outbound_eof_is_silent pre eof text post st :
  eof = true \/ Strings.Contains text "input/output error" = true
  \/ Server.isClosing (Outbound.session st) = true ->
  Outbound.outboundPump
    (map Outbound.Forwarded pre ++ Outbound.ReadFailed eof text :: post) st
  = {| Outbound.session := Outbound.session st;
       Outbound.sent :=
         (Outbound.sent st
          ++ map (fun data => (Websocket.BinaryMessage, data)) pre)%list |}.
Proof.
  revert st. induction pre as [|data pre IH]; intros st H.
  - cbn [map app Outbound.outboundPump]. rewrite app_nil_r. f_equal.
    unfold Outbound.pty_error_steps. destruct eof; [reflexivity|].
    cbn [Server.run_steps Server.exec_step].
    destruct (Server.isClosing (Outbound.session st)) eqn:Hc;
      destruct (Strings.Contains text "input/output error") eqn:Ht;
      cbn [negb Server.run_steps]; try reflexivity.
    destruct H as [H|[H|H]]; discriminate H.
  - cbn [map app Outbound.outboundPump]. rewrite IH by exact H.
    cbn [Outbound.session Outbound.sent]. now rewrite <- app_assoc.
Qed.

(** X8, an instance: two chunks, then the end of file. *)
Lemma outbound_eof_is_silent_witness :
  Outbound.outboundPump
    (map Outbound.Forwarded ["hi"; "$ "] ++ Outbound.ReadFailed true "EOF" :: [])
    {| Outbound.session := Spec.example_session; Outbound.sent := [] |}
  = {| Outbound.session := Spec.example_session;
       Outbound.sent :=
         ([] ++ map (fun data => (Websocket.BinaryMessage, data)) ["hi"; "$ "])%list |}.
Proof.
  apply (outbound_eof_is_silent ["hi"; "$ "] true "EOF" []
           {| Outbound.session := Spec.example_session; Outbound.sent := [] |}).
  now left.
Defined.

End OutboundFacts.

(** * Further properties of the client *)

Section AddressAgain.

Lemma NewClient_keeps_ws r :
  Strings.IndexByte r "/" <> None ->
  Client.URL (Client.NewClient ("ws://" ++ r)) = "ws://" ++ r.
Proof.
  intros Hr. unfold Client.NewClient. cbn [Client.URL]. cbv zeta.
  change (String.eqb ("ws://" ++ r) "") with false. cbv iota.
  assert (Strings.HasPrefix ("ws://" ++ r) "http://" = false) as ->.
  { unfold Strings.HasPrefix, Strings.slice. simpl.
    now rewrite andb_false_r. }
  assert (Strings.HasPrefix ("ws://" ++ r) "https://" = false) as ->.
  { unfold Strings.HasPrefix, Strings.slice. simpl.
    now rewrite andb_false_r. }
  rewrite (HasPrefix_append "ws://" r). cbn [negb andb].
  rewrite SplitN_ws_length.
  destruct (Strings.IndexByte r "/"); [reflexivity | congruence].
Qed.

Lemma NewClient_keeps_wss r :
  Strings.IndexByte r "/" <> None ->
  Client.URL (Client.NewClient ("wss://" ++ r)) = "wss://" ++ r.
Proof.
  intros Hr. unfold Client.NewClient. cbn [Client.URL]. cbv zeta.
  change (String.eqb ("wss://" ++ r) "") with false. cbv iota.
  assert (Strings.HasPrefix ("wss://" ++ r) "http://" = false) as ->.
  { unfold Strings.HasPrefix, Strings.slice. simpl.
    now rewrite andb_false_r. }
  assert (Strings.HasPrefix ("wss://" ++ r) "https://" = false) as ->.
  { unfold Strings.HasPrefix, Strings.slice. simpl.
    now rewrite andb_false_r. }
  rewrite (HasPrefix_append "wss://" r). rewrite andb_false_r.
  rewrite SplitN_wss_length.
  destruct (Strings.IndexByte r "/"); [reflexivity | congruence].
Qed.

Lemma IndexByte_terminal r :
  Strings.IndexByte r "/" = None -> Strings.IndexByte (r ++ "/terminal") "/" <> None.
Proof. intros H. rewrite (IndexByte_append_None r "/terminal" "/" H). discriminate. Qed.

(** The address of every client has a socket scheme and a path. *)
Lemma NewClient_form url :
  exists r,
    Strings.IndexByte r "/" <> None
    /\ (Client.URL (Client.NewClient url) = "ws://" ++ r
        \/ Client.URL (Client.NewClient url) = "wss://" ++ r).
Proof.
  unfold Client.NewClient. cbn [Client.URL]. cbv zeta.
  destruct (scheme_rewriting (if String.eqb url "" then "ws://localhost/terminal" else url))
    as (n & r & Hn & _ & ->).
  destruct Hn as [-> | ->].
  - rewrite SplitN_ws_length. destruct (Strings.IndexByte r "/") eqn:E.
    + exists r. split; [congruence | now left].
    + exists (r ++ "/terminal"). split; [now apply IndexByte_terminal|].
      left. cbn [Nat.eqb]. now rewrite append_assoc.
  - rewrite SplitN_wss_length. destruct (Strings.IndexByte r "/") eqn:E.
    + exists r. split; [congruence | now right].
    + exists (r ++ "/terminal"). split; [now apply IndexByte_terminal|].
      right. cbn [Nat.eqb]. now rewrite append_assoc.
Qed.

(** X9. For every address, also the empty one, the URL of the new client
    starts with [ws://] or [wss://] and has a path after the host, and
    normalising it again changes nothing: [NewClient] is idempotent on the
    URL. *)
Theorem NewClient_idempotent url :
  Client.URL (Client.NewClient (Client.URL (Client.NewClient url)))
  = Client.URL (Client.NewClient url)
  /\ Strings.HasPrefix (Client.URL (Client.NewClient url)) "ws://"
     || Strings.HasPrefix (Client.URL (Client.NewClient url)) "wss://" = true
  /\ Spec.has_path (Client.URL (Client.NewClient url)).
Proof.
  destruct (NewClient_form url) as (r & Hr & [-> | ->]).
  - split; [now apply NewClient_keeps_ws|]. split.
    + now rewrite HasPrefix_append.
    + now apply has_path_ws_iff.
  - split; [now apply NewClient_keeps_wss|]. split.
    + rewrite (HasPrefix_append "wss://" r). apply orb_true_r.
    + now apply has_path_wss_iff.
Qed.

End AddressAgain.

Section SharedDialer.
Context {Fn : Type}.
Implicit Types (d : Websocket.Dialer Fn) (h : gmap positive (Websocket.Dialer Fn)).

(** X10. Without a proxy and without a LinkSocks token, and also after
    [SetCustomDialer(nil)], [Connect] dials with the package-wide
    [websocket.DefaultDialer] and assigns its handshake timeout through the
    pointer: the shared dialer itself is left with 5 seconds for every later
    user, its other fields and all other dialers unchanged. *)
Theorem Connect_changes_shared_default c clientURL d h :
  h !! Client.DefaultDialer = Some d ->
  Client.runClient_dial None clientURL h
  = ({| Client.dial_receiver :=
          Some (Websocket.set_HandshakeTimeout (5 * Time.Second)%Z d);
        Client.dial_url := Client.URL (Client.NewClient clientURL) |},
     <[Client.DefaultDialer := Websocket.set_HandshakeTimeout (5 * Time.Second)%Z d]> h)
  /\ Client.Connect_dial (Client.SetCustomDialer c None) h
     = ({| Client.dial_receiver :=
             Some (Websocket.set_HandshakeTimeout (5 * Time.Second)%Z d);
           Client.dial_url := Client.URL c |},
        <[Client.DefaultDialer := Websocket.set_HandshakeTimeout (5 * Time.Second)%Z d]> h).
Proof.
  intros Hd.
  assert (alter (Websocket.set_HandshakeTimeout (5 * Time.Second)%Z)
            Client.DefaultDialer h
          = <[Client.DefaultDialer :=
                Websocket.set_HandshakeTimeout (5 * Time.Second)%Z d]> h) as Ha.
  { apply map_eq. intros i. destruct (decide (Client.DefaultDialer = i)) as [<-|Hne].
    - now rewrite lookup_alter_eq, lookup_insert_eq, Hd.
    - now rewrite lookup_alter_ne, lookup_insert_ne. }
  split.
  - unfold Client.runClient_dial, Client.Connect_dial.
    change (Client.dialer (Client.NewClient clientURL)) with (Some Client.DefaultDialer).
    cbv beta iota zeta. rewrite Ha. now rewrite lookup_insert_eq.
  - unfold Client.Connect_dial, Client.SetCustomDialer. cbn [Client.dialer Client.URL].
    cbv beta iota zeta. rewrite Ha. now rewrite lookup_insert_eq.
Qed.

End SharedDialer.

(** X10, an instance: a default dialer with the handshake timeout of 45
    seconds that the library gives it. *)
Lemma Connect_changes_shared_default_witness :
  Client.runClient_dial None "example.com"
    ({[ Client.DefaultDialer :=
          Websocket.set_HandshakeTimeout (45 * Time.Second)%Z (Client.cliDialer 0%nat) ]}
       : gmap positive (Websocket.Dialer nat))
  = ({| Client.dial_receiver :=
          Some (Websocket.set_HandshakeTimeout (5 * Time.Second)%Z
                  (Websocket.set_HandshakeTimeout (45 * Time.Second)%Z
                     (Client.cliDialer 0%nat)));
        Client.dial_url := Client.URL (Client.NewClient "example.com") |},
     <[Client.DefaultDialer :=
         Websocket.set_HandshakeTimeout (5 * Time.Second)%Z
           (Websocket.set_HandshakeTimeout (45 * Time.Second)%Z
              (Client.cliDialer 0%nat))]>
       {[ Client.DefaultDialer :=
            Websocket.set_HandshakeTimeout (45 * Time.Second)%Z
              (Client.cliDialer 0%nat) ]})
  /\ Client.Connect_dial
       (Client.SetCustomDialer (Client.NewClient "example.com") None)
       ({[ Client.DefaultDialer :=
             Websocket.set_HandshakeTimeout (45 * Time.Second)%Z
               (Client.cliDialer 0%nat) ]}
          : gmap positive (Websocket.Dialer nat))
     = ({| Client.dial_receiver :=
             Some (Websocket.set_HandshakeTimeout (5 * Time.Second)%Z
                     (Websocket.set_HandshakeTimeout (45 * Time.Second)%Z
                        (Client.cliDialer 0%nat)));
           Client.dial_url := Client.URL (Client.NewClient "example.com") |},
        <[Client.DefaultDialer :=
            Websocket.set_HandshakeTimeout (5 * Time.Second)%Z
              (Websocket.set_HandshakeTimeout (45 * Time.Second)%Z
                 (Client.cliDialer 0%nat))]>
          {[ Client.DefaultDialer :=
               Websocket.set_HandshakeTimeout (45 * Time.Second)%Z
                 (Client.cliDialer 0%nat) ]}).
Proof.
  apply (Connect_changes_shared_default (Client.NewClient "example.com")
           "example.com"
           (Websocket.set_HandshakeTimeout (45 * Time.Second)%Z (Client.cliDialer 0%nat))).
  apply lookup_singleton_eq.
Defined.

Section OutputPump.
Local Open Scope Z_scope.

Lemma outputPump_ends since turns : forall st,
  snd (Pumps.outputPump since turns st) = Notions.output_ends turns.
Proof.
  induction turns as [|[messageType message|messageType message partial text|err] turns IH];
    intros st; cbn [Pumps.outputPump Notions.output_ends].
  - reflexivity.
  - destruct (messageType =? Websocket.CloseMessage); [reflexivity | apply IH].
  - now destruct (messageType =? Websocket.CloseMessage).
  - now destruct (_ || _).
Qed.

(** While no turn ends it, the pump only prints the payloads. *)
Lemma outputPump_running since turns : forall st,
  Notions.output_ends turns = false ->
  fst (Pumps.outputPump since turns st)
  = {| Client.once_done := Client.once_done st;
       Client.hasDisconnected := Client.hasDisconnected st;
       Client.stdout := (Client.stdout st ++ Notions.printed turns)%list |}.
Proof.
  induction turns as [|[messageType message|messageType message partial text|err] turns IH];
    intros st H; cbn [Pumps.outputPump Notions.output_ends Notions.printed] in *.
  - rewrite app_nil_r. now destruct st.
  - destruct (messageType =? Websocket.CloseMessage); [discriminate|].
    rewrite (IH _ H). unfold Pumps.print. cbn. now rewrite <- app_assoc.
  - discriminate.
  - discriminate.
Qed.

Lemma outputPump_app since pre rest : forall st,
  Notions.output_ends pre = false ->
  Pumps.outputPump since (pre ++ rest) st
  = Pumps.outputPump since rest (fst (Pumps.outputPump since pre st)).
Proof.
  induction pre as [|[messageType message|messageType message partial text|err] pre IH];
    intros st H; cbn [Pumps.outputPump Notions.output_ends app] in *.
  - reflexivity.
  - destruct (messageType =? Websocket.CloseMessage); [discriminate | now apply IH].
  - discriminate.
  - discriminate.
Qed.

(** The report of a pump that ends: the payloads, what is printed raw, and
    one disconnect line. *)
Lemma outputPump_report since turns : forall st,
  Client.once_done st = false ->
  Notions.output_ends turns = true ->
  exists reason raw,
    fst (Pumps.outputPump since turns st)
    = {| Client.once_done := true;
         Client.hasDisconnected := true;
         Client.stdout :=
           (Client.stdout st ++ Notions.printed turns ++ raw
            ++ [Client.disconnect_line since reason])%list |}
    /\ In reason ["client closed"; "connection error";
                  "server sent close message"; "output error"]
    /\ (length raw <= 2)%nat
    /\ (reason = "client closed" \/ reason = "server sent close message" ->
        raw = [])
    /\ (reason = "connection error" ->
        exists text,
          raw = [String "013" (String "027" ("[K" ++ String "010" ""));
                 "Connection closed: " ++ text])
    /\ (reason = "output error" ->
        exists partial text,
          raw = [partial; "Error writing to stdout: " ++ text]).
Proof.
  induction turns as [|[messageType message|messageType message partial text|err] turns IH];
    intros st Hfresh Hends; cbn [Pumps.outputPump Notions.output_ends Notions.printed] in *.
  - discriminate.
  - destruct (messageType =? Websocket.CloseMessage).
    + exists "server sent close message", []. cbn [fst].
      rewrite (disconnect_first _ _ _ Hfresh). cbn [Client.stdout app].
      split; [reflexivity|]. split; [cbn; tauto|]. split; [cbn; lia|].
      split; [reflexivity|]. split; intros H; discriminate H.
    + destruct (IH (Pumps.print message st) Hfresh Hends) as (reason & raw & -> & Hrest).
      exists reason, raw. split; [|exact Hrest].
      unfold Pumps.print. cbn [Client.stdout app]. now rewrite <- app_assoc.
  - destruct (messageType =? Websocket.CloseMessage).
    + exists "server sent close message", []. cbn [fst].
      rewrite (disconnect_first _ _ _ Hfresh). cbn [Client.stdout app].
      split; [reflexivity|]. split; [cbn; tauto|]. split; [cbn; lia|].
      split; [reflexivity|]. split; intros H; discriminate H.
    + exists "output error", [partial; "Error writing to stdout: " ++ text]. cbn [fst].
      rewrite disconnect_first by exact Hfresh. unfold Pumps.print.
      cbn [Client.stdout Client.once_done Client.hasDisconnected app].
      split; [now rewrite <- !app_assoc|]. split; [cbn; tauto|].
      split; [cbn; lia|].
      split; [intros [H|H]; discriminate H|].
      split; [intros H; discriminate H|].
      intros _. now exists partial, text.
  - destruct (_ || _).
    + exists "client closed", []. cbn [fst].
      rewrite (disconnect_first _ _ _ Hfresh). cbn [Client.stdout app].
      split; [reflexivity|]. split; [cbn; tauto|]. split; [cbn; lia|].
      split; [reflexivity|]. split; intros H; discriminate H.
    + exists "connection error",
        [Client.CR ++ Client.ESC ++ "[K" ++ Client.LF;
         "Connection closed: " ++ Websocket.Error err]. cbn [fst].
      rewrite disconnect_first by exact Hfresh. unfold Pumps.print.
      cbn [Client.stdout Client.once_done Client.hasDisconnected app].
      split; [now rewrite <- !app_assoc|]. split; [cbn; tauto|].
      split; [cbn; lia|].
      split; [intros [H|H]; discriminate H|].
      split; [|intros H; discriminate H].
      intros _. now exists (Websocket.Error err).
Qed.



(** X12. A read that fails with a close error of code 1000 (normal
    closure) or 1001 (going away), which is what the close frame of the
    server's exit watcher produces, is reported with the reason "client
    closed" and with no raw error line; the reason "server sent close
    message" is not the one printed. *)
Theorem close_error_reported_as_client_closed since pre code text post st :
  Client.once_done st = false ->
  Notions.output_ends pre = false ->
  code = Websocket.CloseNormalClosure \/ code = Websocket.CloseGoingAway ->
  Client.stdout
    (fst (Pumps.outputPump since
            (pre ++ Pumps.ReadFailed
                      {| Websocket.close_code := Some code; Websocket.Error := text |}
                    :: post)
            st))
  = (Client.stdout st ++ Notions.printed pre
     ++ [Client.disconnect_line since "client closed"])%list.
Proof.
  intros Hfresh Hpre Hcode. rewrite (outputPump_app since pre _ st Hpre).
  rewrite (outputPump_running since pre st Hpre).
  cbn [Pumps.outputPump].
  assert (Websocket.IsCloseError
            {| Websocket.close_code := Some code; Websocket.Error := text |}
            [Websocket.CloseNormalClosure; Websocket.CloseGoingAway] = true) as ->.
  { unfold Websocket.IsCloseError. cbn.
    destruct Hcode as [-> | ->]; reflexivity. }
  cbn [orb fst]. rewrite disconnect_first by exact Hfresh. cbn.
  now rewrite <- app_assoc.
Qed.

(** X12, an instance: output, then the normal closure. *)
Lemma close_error_reported_as_client_closed_witness :
  Client.stdout
    (fst (Pumps.outputPump (45 * Time.Second)
            ([Pumps.Received Websocket.BinaryMessage "exit"]
             ++ Pumps.ReadFailed
                  {| Websocket.close_code := Some Websocket.CloseNormalClosure;
                     Websocket.Error := "websocket: close 1000 (normal)" |}
                :: [])
            Client.connected))
  = (Client.stdout Client.connected
     ++ Notions.printed [Pumps.Received Websocket.BinaryMessage "exit"]
     ++ [Client.disconnect_line (45 * Time.Second) "client closed"])%list.
Proof.
  apply (close_error_reported_as_client_closed (45 * Time.Second)
           [Pumps.Received Websocket.BinaryMessage "exit"]
           Websocket.CloseNormalClosure "websocket: close 1000 (normal)" []
           Client.connected); [reflexivity | reflexivity | now left].
Defined.

(** X13. Once the dial has succeeded and the deferred function is set
    up, the output pump and the deferred function of [Connect] print no
    second disconnect line: when the output pump has reported, the deferred
    function adds nothing; when it has not (the input pump ended the
    session), the deferred function prints the line with the reason "client
    closed".  A dial that fails returns before either exists and is not
    spoken of. *)
Theorem Connect_reports_once since1 since2 turns st :
  Client.once_done st = false ->
  Client.hasDisconnected st = false ->
  Client.stdout (Pumps.deferred since2 (fst (Pumps.outputPump since1 turns st)))
  = (Client.stdout (fst (Pumps.outputPump since1 turns st))
     ++ if Notions.output_ends turns then []
        else [Client.disconnect_line since2 "client closed"])%list.
Proof.
  intros Hfresh Hdis. destruct (Notions.output_ends turns) eqn:E.
  - destruct (outputPump_report since1 turns st Hfresh E) as (reason & raw & -> & _).
    unfold Pumps.deferred. cbn. now rewrite app_nil_r.
  - rewrite (outputPump_running since1 turns st E).
    unfold Pumps.deferred. cbn [Client.hasDisconnected]. rewrite Hdis. cbn [negb].
    rewrite disconnect_first by exact Hfresh. reflexivity.
Qed.

(** X13, an instance: the output pump is still reading when [Connect]
    returns. *)
Lemma Connect_reports_once_witness :
  Client.stdout
    (Pumps.deferred (46 * Time.Second)
       (fst (Pumps.outputPump (45 * Time.Second)
               [Pumps.Received Websocket.BinaryMessage "$ "] Client.connected)))
  = (Client.stdout
       (fst (Pumps.outputPump (45 * Time.Second)
               [Pumps.Received Websocket.BinaryMessage "$ "] Client.connected))
     ++ if Notions.output_ends [Pumps.Received Websocket.BinaryMessage "$ "]
        then []
        else [Client.disconnect_line (46 * Time.Second) "client closed"])%list.
Proof.
  apply (Connect_reports_once (45 * Time.Second) (46 * Time.Second)
           [Pumps.Received Websocket.BinaryMessage "$ "] Client.connected);
    reflexivity.
Defined.

End OutputPump.

Section InputPump.
Local Open Scope Z_scope.

Lemma inputPump_ends turns : snd (Pumps.inputPump turns) = Notions.input_ends turns.
Proof.
  induction turns as [|[chunk|chunk err|] turns IH];
    cbn [Pumps.inputPump Notions.input_ends]; try reflexivity.
  destruct (Pumps.inputPump turns) as [[msgs out] ended]. exact IH.
Qed.

Lemma inputPump_typed chunks :
  Pumps.inputPump (map Pumps.Typed chunks)
  = (map (Websocket.Message Websocket.TextMessage) chunks, [], false).
Proof.
  induction chunks as [|chunk chunks IH]; cbn [map Pumps.inputPump]; [reflexivity|].
  now rewrite IH.
Qed.

Lemma text_payloads_text chunks :
  Notions.text_payloads (map (Websocket.Message Websocket.TextMessage) chunks) = chunks
  /\ Notions.no_error (map (Websocket.Message Websocket.TextMessage) chunks) = true.
Proof.
  induction chunks as [|chunk chunks [IH1 IH2]]; [now split|].
  cbn [map Notions.text_payloads Notions.no_error]. split; [|exact IH2].
  change (Websocket.TextMessage =? Websocket.TextMessage) with true. cbv iota.
  now rewrite IH1.
Qed.

(** X14. Both pumps close the channel [done] when they return: the input
    pump before each of its two returns, the output pump by its deferred
    call. When the two of them reach their end, in either order, the
    second [close(done)] closes a closed channel, a run-time panic in
    Go. *)
Theorem second_close_panics since input output st :
  Notions.input_ends input = true ->
  Notions.output_ends output = true ->
  Pumps.outputPump_done since output st (Pumps.inputPump_done input Pumps.DoneOpen)
  = Pumps.ClosedTwice
  /\ Pumps.inputPump_done input (Pumps.outputPump_done since output st Pumps.DoneOpen)
     = Pumps.ClosedTwice.
Proof.
  intros Hi Ho. unfold Pumps.outputPump_done, Pumps.inputPump_done.
  now rewrite outputPump_ends, inputPump_ends, Hi, Ho.
Qed.

(** X14, an instance: the server closes, the output pump returns, then a
    key is pressed and the write of the input pump fails. *)
Lemma second_close_panics_witness :
  Pumps.outputPump_done (45 * Time.Second) [Pumps.ReadFailed Notions.normal_closure]
    Client.connected
    (Pumps.inputPump_done [Pumps.SendFailed "q" Spec.broken_pipe] Pumps.DoneOpen)
  = Pumps.ClosedTwice
  /\ Pumps.inputPump_done [Pumps.SendFailed "q" Spec.broken_pipe]
       (Pumps.outputPump_done (45 * Time.Second)
          [Pumps.ReadFailed Notions.normal_closure] Client.connected Pumps.DoneOpen)
     = Pumps.ClosedTwice.
Proof.
  apply (second_close_panics (45 * Time.Second)
           [Pumps.SendFailed "q" Spec.broken_pipe]
           [Pumps.ReadFailed Notions.normal_closure] Client.connected);
    reflexivity.
Defined.

(** X15. From the keyboard to the shell: the input pump sends every chunk
    read from standard input as one text message, and the inbound pump of
    the server writes to an open PTY exactly the chunks that are not taken
    for resize requests, in the order typed. A chunk that starts with
    [resize:] and is longer never reaches the shell. *)
Theorem typed_input_reaches_pty chunks s :
  Pty.closed (Server.ptmx s) = false ->
  Pty.written
    (Server.ptmx
       (Server.inboundPump (fst (fst (Pumps.inputPump (map Pumps.Typed chunks)))) s))
  = (Pty.written (Server.ptmx s)
     ++ List.filter (fun p => negb (Notions.resize_like p)) chunks)%list.
Proof.
  intros Hopen. rewrite inputPump_typed. cbn [fst].
  destruct (text_payloads_text chunks) as [Hp Hok].
  destruct (inboundPump_written _ s Hopen Hok) as [-> _]. now rewrite Hp.
Qed.

(** X15, an instance: the second chunk is swallowed. *)
Lemma typed_input_reaches_pty_witness :
  Pty.written
    (Server.ptmx
       (Server.inboundPump
          (fst (fst (Pumps.inputPump
                       (map Pumps.Typed ["echo "; "resize:now"; "hi"]))))
          Spec.example_session))
  = (Pty.written (Server.ptmx Spec.example_session)
     ++ List.filter (fun p => negb (Notions.resize_like p))
          ["echo "; "resize:now"; "hi"])%list.
Proof.
  apply (typed_input_reaches_pty ["echo "; "resize:now"; "hi"] Spec.example_session).
  reflexivity.
Defined.

End InputPump.

Section Poller.
Local Open Scope Z_scope.

Lemma poll_last ticks : forall last events,
  fst (Pumps.poll ticks last events) = Notions.last_good ticks last.
Proof.
  induction ticks as [|r ticks IH]; intros [w h] events;
    cbn [Pumps.poll Notions.last_good fst snd]; [reflexivity|].
  destruct (Pumps.failed r); [apply IH|].
  destruct (Z.eqb_spec (Pumps.width r) w) as [Hw|Hw];
    destruct (Z.eqb_spec (Pumps.height r) h) as [Hh|Hh]; cbn [negb orb];
    rewrite IH; try reflexivity.
  now rewrite Hw, Hh.
Qed.

Lemma poll_events_bounds ticks : forall last events,
  (events <= snd (Pumps.poll ticks last events)
   <= events + length (List.filter (fun r => negb (Pumps.failed r)) ticks))%nat.
Proof.
  induction ticks as [|r ticks IH]; intros last events;
    cbn [Pumps.poll List.filter length snd]; [lia|].
  destruct (Pumps.failed r); cbn [negb]; [apply IH|].
  destruct (_ || _); cbn [length].
  - pose proof (IH (Pumps.width r, Pumps.height r) (S events)). lia.
  - pose proof (IH last events). lia.
Qed.

Lemma poll_stable ticks : forall last events,
  (forall r, In r ticks -> Pumps.failed r = false ->
             (Pumps.width r, Pumps.height r) = last) ->
  Pumps.poll ticks last events = (last, events).
Proof.
  induction ticks as [|r ticks IH]; intros [w h] events Hall;
    cbn [Pumps.poll fst snd]; [reflexivity|].
  assert (forall r', In r' ticks -> Pumps.failed r' = false ->
                     (Pumps.width r', Pumps.height r') = (w, h)) as Hall'
    by (intros r' Hin; apply Hall; now right).
  destruct (Pumps.failed r) eqn:Hf; [now apply IH|].
  pose proof (Hall r (or_introl eq_refl) Hf) as Hr. injection Hr as -> ->.
  rewrite !Z.eqb_refl. cbn [negb orb]. now apply IH.
Qed.

(** X16. The resize poller records the last reading of the terminal size
    that did not fail (the first reading when none did), sends at most one
    event for each reading that did not fail, and sends no event at all
    while every such reading equals the size recorded at the start. *)
Theorem poller_records_and_stays_quiet first ticks :
  fst (Pumps.setupResizeHandler first ticks)
  = Notions.last_good ticks (Pumps.width first, Pumps.height first)
  /\ (snd (Pumps.setupResizeHandler first ticks)
      <= length (List.filter (fun r => negb (Pumps.failed r)) ticks))%nat
  /\ ((forall r, In r ticks -> Pumps.failed r = false ->
                 (Pumps.width r, Pumps.height r)
                 = (Pumps.width first, Pumps.height first)) ->
      snd (Pumps.setupResizeHandler first ticks) = 0%nat).
Proof.
  unfold Pumps.setupResizeHandler. split; [apply poll_last|]. split.
  - pose proof (poll_events_bounds ticks (Pumps.width first, Pumps.height first) 0).
    lia.
  - intros Hall. now rewrite (poll_stable ticks _ 0%nat Hall).
Qed.

End Poller.

Section ServerSetupFacts.
Local Open Scope Z_scope.

(** The shell that [runServer] finds, and the server built with it. *)
Lemma detectShell_found serverPort serverHost shellPath SHELL bash sh shell :
  ServerSetup.detectShell shellPath SHELL bash sh = Some shell ->
  ServerSetup.ShellPath (ServerSetup.NewServer serverPort serverHost shell []) = shell
  /\ shell <> ""
  /\ ServerSetup.Host (ServerSetup.NewServer serverPort serverHost shell []) <> ""
  /\ (shellPath <> "" -> shell = shellPath)
  /\ (shellPath = "" -> SHELL <> "" -> shell = SHELL).
Proof.
  intros Hd.
  assert (shell <> ""
          /\ (shellPath <> "" -> shell = shellPath)
          /\ (shellPath = "" -> SHELL <> "" -> shell = SHELL)) as (Hne & H1 & H2).
  { unfold ServerSetup.detectShell in Hd.
    destruct (String.eqb_spec shellPath "") as [->|Hs]; cbn [negb] in Hd.
    - destruct (String.eqb_spec SHELL "") as [->|He]; cbn [negb] in Hd.
      + destruct bash; [|destruct sh]; try discriminate Hd;
          injection Hd as <-; repeat split; congruence.
      + injection Hd as <-. repeat split; congruence.
    - injection Hd as <-. repeat split; congruence. }
  unfold ServerSetup.NewServer. cbn [ServerSetup.ShellPath ServerSetup.Host].
  destruct (String.eqb_spec shell "") as [?|_]; [contradiction|].
  repeat split; try assumption.
  destruct (String.eqb_spec serverHost ""); [discriminate | assumption].
Qed.

Lemma detectShell_none shellPath SHELL bash sh :
  ServerSetup.detectShell shellPath SHELL bash sh = None ->
  shellPath = "" /\ SHELL = "" /\ bash = false /\ sh = false.
Proof.
  unfold ServerSetup.detectShell.
  destruct (String.eqb_spec shellPath ""); cbn [negb]; [|discriminate].
  destruct (String.eqb_spec SHELL ""); cbn [negb]; [|discriminate].
  destruct bash; [discriminate|]. destruct sh; [discriminate|]. now intros _.
Qed.

(** X17. [runServer] gets to [server.Start] exactly when it finds a shell
    and, a LinkSocks token being given, [WaitReady] and [AddConnector] both
    succeed.  The server started has a shell path and a host that are not
    empty: the shell given on the command line, otherwise [$SHELL] when it
    is set, otherwise [bash] or [sh] as found, so the default [/bin/bash] of
    [NewServer] is never used on this path.  Otherwise [runServer] exits
    with one of three messages: no shell was found (no flag, no [$SHELL],
    neither [bash] nor [sh]), or, a shell being found and a token given,
    [WaitReady] failed, or it succeeded and [AddConnector] failed. *)
Theorem runServer_shell serverPort serverHost shellPath SHELL bash sh
    linksocksToken waitReady addConnector :
  match ServerSetup.runServer serverPort serverHost shellPath SHELL bash sh
          linksocksToken waitReady addConnector with
  | ServerSetup.Started srv =>
      ServerSetup.ShellPath srv <> ""
      /\ ServerSetup.Host srv <> ""
      /\ ServerSetup.Port srv = serverPort
      /\ ServerSetup.detectShell shellPath SHELL bash sh
         = Some (ServerSetup.ShellPath srv)
      /\ (shellPath <> "" -> ServerSetup.ShellPath srv = shellPath)
      /\ (shellPath = "" -> SHELL <> "" -> ServerSetup.ShellPath srv = SHELL)
      /\ (linksocksToken = "" \/ (waitReady = true /\ addConnector = true))
  | ServerSetup.Exit msg =>
      (msg = "Could not detect a shell to use"
       /\ shellPath = "" /\ SHELL = "" /\ bash = false /\ sh = false)
      \/ (msg = "Failed to connect to linksocks server"
          /\ ServerSetup.detectShell shellPath SHELL bash sh <> None
          /\ linksocksToken <> "" /\ waitReady = false)
      \/ (msg = "Failed to add connector token"
          /\ ServerSetup.detectShell shellPath SHELL bash sh <> None
          /\ linksocksToken <> "" /\ waitReady = true /\ addConnector = false)
  end.
Proof.
  unfold ServerSetup.runServer.
  destruct (ServerSetup.detectShell shellPath SHELL bash sh) as [shell|] eqn:Hd.
  - destruct (detectShell_found serverPort serverHost _ _ _ _ _ Hd)
      as (Hp & Hne & Hh & H1 & H2).
    assert (ServerSetup.Port (ServerSetup.NewServer serverPort serverHost shell [])
            = serverPort) as Hport by reflexivity.
    destruct (String.eqb_spec linksocksToken "") as [Ht|Ht]; cbn [negb].
    + rewrite Hp. repeat split; auto.
    + destruct waitReady; cbn [negb].
      * destruct addConnector; cbn [negb].
        -- rewrite Hp. repeat split; auto.
        -- right; right. repeat split; auto; discriminate.
      * right; left. repeat split; auto; discriminate.
  - left. split; [reflexivity|]. exact (detectShell_none _ _ _ _ Hd).
Qed.

(** Three runs: a found shell with no token, a token whose connector is
    refused, and no shell at all. *)
Example runServer_samples :
  ServerSetup.runServer 8080 "" "" "/bin/zsh" true true "" false false
  = ServerSetup.Started
      {| ServerSetup.Port := 8080; ServerSetup.Host := "localhost";
         ServerSetup.ShellPath := "/bin/zsh"; ServerSetup.ShellArgs := [] |}
  /\ ServerSetup.runServer 8080 "" "" "/bin/zsh" true true "token" true false
     = ServerSetup.Exit "Failed to add connector token"
  /\ ServerSetup.runServer 8080 "" "" "" false false "token" true true
     = ServerSetup.Exit "Could not detect a shell to use".
Proof. repeat split; reflexivity. Qed.

End ServerSetupFacts.

Section PeerAddress.
Variable TrimSpace : string -> string.
Variable SplitHostPort : string -> option (string * string).

(** The first field of [strings.Split] is the text before the first
    separator. *)
Lemma Split_head s c :
  nth 0 (Strings.Split s c) ""
  = match Strings.IndexByte s c with
    | Some m => Strings.slice s 0 m
    | None => s
    end
  /\ (0 < length (Strings.Split s c))%nat.
Proof.
  unfold Strings.Split. rewrite Nat.add_1_r.
  destruct (Strings.IndexByte s c) as [m|] eqn:E.
  - destruct (Strings.Count s c) as [|k] eqn:Ec.
    + apply Count_0_None in Ec. congruence.
    + cbn [Strings.genSplit]. rewrite E. cbn [nth length]. split; [reflexivity | lia].
  - rewrite (Count_None s c E). cbn. split; [reflexivity | lia].
Qed.

(** Precedence of the peer address: a non-empty [CF-Connecting-IP]
    header is returned as it is; failing that, a non-empty
    [CF-Connecting-IPv6]; in both cases whatever [X-Forwarded-For] and the
    remote address say. *)
Lemma getClientIP_cloudflare_first r :
  (ClientIP.HeaderGet r "CF-Connecting-IP" <> "" ->
   ClientIP.getClientIP TrimSpace SplitHostPort r
   = ClientIP.HeaderGet r "CF-Connecting-IP")
  /\ (ClientIP.HeaderGet r "CF-Connecting-IP" = "" ->
      ClientIP.HeaderGet r "CF-Connecting-IPv6" <> "" ->
      ClientIP.getClientIP TrimSpace SplitHostPort r
      = ClientIP.HeaderGet r "CF-Connecting-IPv6").
Proof using Type.
  unfold ClientIP.getClientIP. split.
  - intros H. destruct (String.eqb_spec (ClientIP.HeaderGet r "CF-Connecting-IP") "");
      [contradiction | reflexivity].
  - intros -> H. cbn [String.eqb negb].
    destruct (String.eqb_spec (ClientIP.HeaderGet r "CF-Connecting-IPv6") "");
      [contradiction | reflexivity].
Qed.

(** X18. Without Cloudflare headers, a non-empty [X-Forwarded-For] always
    decides: the address is the text before its first comma (the whole
    header when it has none) with the surrounding space trimmed, also when
    that text is empty; the remote address is then never used. With an empty
    [X-Forwarded-For] the address is the host part of the remote address, or
    the remote address itself when it does not split. *)
Theorem getClientIP_forwarded_for r :
  ClientIP.HeaderGet r "CF-Connecting-IP" = "" ->
  ClientIP.HeaderGet r "CF-Connecting-IPv6" = "" ->
  (ClientIP.HeaderGet r "X-Forwarded-For" <> "" ->
   ClientIP.getClientIP TrimSpace SplitHostPort r
   = TrimSpace
       match Strings.IndexByte (ClientIP.HeaderGet r "X-Forwarded-For") "," with
       | Some m => Strings.slice (ClientIP.HeaderGet r "X-Forwarded-For") 0 m
       | None => ClientIP.HeaderGet r "X-Forwarded-For"
       end)
  /\ (ClientIP.HeaderGet r "X-Forwarded-For" = "" ->
      ClientIP.getClientIP TrimSpace SplitHostPort r
      = match SplitHostPort (ClientIP.RemoteAddr r) with
        | Some (host, _) => host
        | None => ClientIP.RemoteAddr r
        end).
Proof using Type.
  intros H1 H2. unfold ClientIP.getClientIP. rewrite H1, H2. cbn [String.eqb negb].
  split.
  - intros H.
    destruct (String.eqb_spec (ClientIP.HeaderGet r "X-Forwarded-For") "");
      [contradiction|]. cbn [negb andb].
    destruct (Split_head (ClientIP.HeaderGet r "X-Forwarded-For") ",") as [Hh Hl].
    apply Nat.ltb_lt in Hl. rewrite Hl. now rewrite Hh.
  - intros ->. reflexivity.
Qed.

End PeerAddress.

(** X18, an instance: a forwarded chain whose first entry is empty. *)
Lemma getClientIP_forwarded_for_witness :
  (ClientIP.HeaderGet
     {| ClientIP.HeaderGet :=
          fun key => if String.eqb key "X-Forwarded-For" then ",10.0.0.1" else "";
        ClientIP.RemoteAddr := "192.0.2.1:4711" |} "X-Forwarded-For" <> "" ->
   ClientIP.getClientIP (fun s => s) (fun _ => None)
     {| ClientIP.HeaderGet :=
          fun key => if String.eqb key "X-Forwarded-For" then ",10.0.0.1" else "";
        ClientIP.RemoteAddr := "192.0.2.1:4711" |}
   = "")
  /\ (ClientIP.HeaderGet
        {| ClientIP.HeaderGet :=
             fun key => if String.eqb key "X-Forwarded-For" then ",10.0.0.1" else "";
           ClientIP.RemoteAddr := "192.0.2.1:4711" |} "X-Forwarded-For" = "" ->
      ClientIP.getClientIP (fun s => s) (fun _ => None)
        {| ClientIP.HeaderGet :=
             fun key => if String.eqb key "X-Forwarded-For" then ",10.0.0.1" else "";
           ClientIP.RemoteAddr := "192.0.2.1:4711" |}
      = "192.0.2.1:4711").
Proof.
  apply (getClientIP_forwarded_for (fun s => s) (fun _ => None)
           {| ClientIP.HeaderGet :=
                fun key => if String.eqb key "X-Forwarded-For" then ",10.0.0.1" else "";
              ClientIP.RemoteAddr := "192.0.2.1:4711" |}); reflexivity.
Defined.
